(** * IPA palette: configuration store and insertion-target tracker

    A shallow embedding of [src/main.ts] (an Obsidian plugin) and the
    properties of its two stateful parts: the category configuration
    ([MyPlugin.settings], edited from [IPASettingTab] and rendered by
    [IPAPaletteView.onOpen]) and the tracker of the last active editor
    ([IPAPaletteView.lastActiveEditor] / [lastActiveView]). *)

From stdpp Require Import base option list strings gmap pretty.
From Stdlib Require Import ZArith NArith Permutation.

Set Warnings "-register-all,-clear-no-such-hyp".
Local Open Scope Z_scope.
Local Open Scope list_scope.

(** ** JavaScript values *)

(** A JavaScript string is a sequence of UTF-16 code units; [length] counts
    code units. *)
Abbreviation text := (list N).

(** The text of an ASCII literal of the source. *)
Fixpoint lit (s : string) : text :=
  match s with
  | EmptyString => []
  | String a r => Ascii.N_of_ascii a :: lit r
  end.

(** The values a settings object can hold: whatever JSON gives back, plus
    [undefined].  Numbers carry integer values only: the program looks at a
    number through [ToBoolean] and [===] against strings, which do not tell a
    fraction from a non-zero integer. *)
Inductive value : Type :=
  | VUndefined
  | VNull
  | VBool (b : bool)
  | VNum (n : Z)
  | VStr (s : text)
  | VArr (l : list value)
  | VObj (m : gmap string value).

Definition str (s : string) : value := VStr (lit s).

Inductive error : Type :=
  | TypeError      (* iterating a value that is not iterable *)
  | StorageError.  (* the host rejected a write of the plugin data *)

(** [ToBoolean], as used by [if (x)]. *)
Definition truthy (v : value) : bool :=
  match v with
  | VUndefined | VNull => false
  | VBool b => b
  | VNum n => negb (n =? 0)
  | VStr s => negb (bool_decide (s = []))
  | VArr _ | VObj _ => true
  end.

(** [o.k] on a plain object: the property, or [undefined]. *)
Definition get (o : gmap string value) (k : string) : value :=
  default VUndefined (o !! k).

(** [v === 'literal'], the comparison made by a [switch] over string cases. *)
Definition is_string (s : string) (v : value) : bool :=
  match v with
  | VStr t => bool_decide (t = lit s)
  | _ => false
  end.

Definition is_high_surrogate (u : N) : bool := ((0xD800 <=? u) && (u <=? 0xDBFF))%N.
Definition is_low_surrogate (u : N) : bool := ((0xDC00 <=? u) && (u <=? 0xDFFF))%N.

(** The string iterator yields code points: a surrogate pair comes out as
    one two-unit string. *)
Fixpoint code_points (t : text) : list text :=
  match t with
  | [] => []
  | u :: r =>
      match r with
      | v :: r' =>
          if is_high_surrogate u && is_low_surrogate v
          then [u; v] :: code_points r'
          else [u] :: code_points r
      | [] => [[u]]
      end
  end.

(** What [for (const x of v)] and [[...v]] enumerate; [TypeError] when [v]
    is not iterable. *)
Definition iterate (v : value) : error + list value :=
  match v with
  | VArr l => inr l
  | VStr s => inr (VStr <$> code_points s)
  | _ => inl TypeError
  end.

(** [i.toString()] for an array index. *)
Definition toString (i : nat) : text := lit (pretty i).

(** Own enumerable properties, as [Object.assign] reads them from a source:
    the entries of an object, the indexed elements of an array or string,
    nothing for a primitive, [null] or [undefined]. *)
Definition own_props (v : value) : gmap string value :=
  match v with
  | VObj m => m
  | VArr l => list_to_map (imap (λ i x, (pretty i, x)) l)
  | VStr s => list_to_map (imap (λ i u, (pretty i, VStr [u])) s)
  | _ => ∅
  end.

(** What an object inherits from: [Object.prototype] (as [{}] and every
    object of the stored data do), nothing, a stored object, or a stored
    array. *)
Inductive prototype : Type :=
  | ObjectPrototype
  | NullPrototype
  | StoredObject (m : gmap string value)
  | StoredArray.

(** Whether assigning to ["__proto__"] on an object that has no field of
    that name finds, along its prototypes, the accessor of
    [Object.prototype]; if a stored object with a field ["__proto__"], or no
    prototype, comes first, the assignment makes a field. *)
Definition reaches_proto_setter (p : prototype) : bool :=
  match p with
  | ObjectPrototype | StoredArray => true
  | NullPrototype => false
  | StoredObject m => bool_decide (m !! "__proto__" = None)
  end.

(** The setter of [Object.prototype.__proto__]: an object or [null] becomes
    the prototype, any other value is ignored. *)
Definition set_prototype (p : prototype) (v : value) : prototype :=
  match v with
  | VObj m => StoredObject m
  | VArr _ => StoredArray
  | VNull => NullPrototype
  | _ => p
  end.

(** One source of [Object.assign]: [target[key] = source[key]] for each own
    enumerable key.  The assignment makes or overwrites a field of the
    target, but for the key ["__proto__"] when the target has no such field
    and the accessor is reached: then the setter runs and no field is
    made. *)
Definition assign_from (tp : gmap string value * prototype) (source : value)
  : gmap string value * prototype :=
  let '(target, p) := tp in
  let props := own_props source in
  match props !! "__proto__" with
  | Some v =>
      if bool_decide (target !! "__proto__" = None) && reaches_proto_setter p
      then (delete "__proto__" props ∪ target, set_prototype p v)
      else (props ∪ target, p)
  | None => (props ∪ target, p)
  end.

(** [Object.assign(target, ...sources)] for a target that inherits from
    [Object.prototype], as [{}] does: the fields of the target after each
    source in turn was assigned to it.  (The prototype that a stored
    ["__proto__"] may give the result is not kept: the plugin reads the five
    fields of the defaults only, which the result has as its own.) *)
Definition Object_assign (target : gmap string value) (sources : list value)
  : gmap string value :=
  (foldl assign_from (target, ObjectPrototype) sources).1.

(** [ToIntegerOrInfinity] of a number that is [NaN] ([None]) or an integer. *)
Definition to_integer (x : option Z) : Z := default 0 x.

(** [a.splice(start, deleteCount, ...items)]: the array after the call and
    the array of removed elements. *)
Definition splice {A} (a : list A) (start : option Z) (deleteCount : Z)
    (items : list A) : list A * list A :=
  let len := Z.of_nat (length a) in
  let rel := to_integer start in
  let actualStart := if rel <? 0 then Z.max (len + rel) 0 else Z.min rel len in
  let dc := Z.min (Z.max deleteCount 0) (len - actualStart) in
  let i := Z.to_nat actualStart in
  let n := Z.to_nat dc in
  (take i a ++ items ++ drop (i + n) a, take n (drop i a)).

(** *** [parseInt] *)

(** [StrWhiteSpaceChar]: white space and line terminators. *)
Definition is_white_space (u : N) : bool :=
  ((9 <=? u) && (u <=? 13) || (u =? 32) || (u =? 0xA0) || (u =? 0x1680)
   || (0x2000 <=? u) && (u <=? 0x200A) || (u =? 0x2028) || (u =? 0x2029)
   || (u =? 0x202F) || (u =? 0x205F) || (u =? 0x3000) || (u =? 0xFEFF))%N.

Fixpoint trim_start (t : text) : text :=
  match t with
  | u :: r => if is_white_space u then trim_start r else t
  | [] => []
  end.

(** The value of a code unit as a digit of the given radix. *)
Definition digit_value (radix : N) (u : N) : option N :=
  let d :=
    (if (48 <=? u) && (u <=? 57) then Some (u - 48)
     else if (97 <=? u) && (u <=? 122) then Some (u - 87)
     else if (65 <=? u) && (u <=? 90) then Some (u - 55)
     else None)%N in
  d ≫= λ n, if (n <? radix)%N then Some n else None.

(** Reads the longest prefix of digits; [None] when there is none. *)
Fixpoint parse_digits (radix : N) (acc : option N) (t : text) : option N :=
  match t with
  | u :: r =>
      match digit_value radix u with
      | Some d => parse_digits radix (Some (default 0%N acc * radix + d)%N) r
      | None => acc
      end
  | [] => acc
  end.

(** [parseInt(s)] with no radix argument; [None] is [NaN].  The result is
    the exact integer (a double rounds it above 2^53). *)
Definition parseInt (s : text) : option Z :=
  let s1 := trim_start s in
  let '(sign, s2) :=
    match s1 with
    | 45%N :: r => (-1, r)
    | 43%N :: r => (1, r)
    | _ => (1, s1)
    end in
  let '(radix, s3) :=
    match s2 with
    | 48%N :: 120%N :: r | 48%N :: 88%N :: r => (16%N, r)
    | _ => (10%N, s2)
    end in
  (λ n, sign * Z.of_N n) <$> parse_digits radix None s3.

(** ** The host *)

(** Modelled from the spec: a position of the host's editor contract,
    [{line, ch}]; the editor itself belongs to the host application. *)
Record Pos : Type := { line : nat; ch : nat }.

(** Modelled from the spec: the text buffer behind the host's editor handle
    ([getCursor], [replaceRange], [setCursor], [focus]): the lines of the
    document and the cursor. *)
Record Editor : Type := { doc : list text; cursor : Pos }.

Global Instance Editor_inhabited : Inhabited Editor :=
  populate {| doc := [[]]; cursor := {| line := 0; ch := 0 |} |}.

(** Modelled from the spec: the host clips a position it is given to the
    nearest position of the document. *)
Definition clip (d : list text) (p : Pos) : Pos :=
  match d !! line p with
  | Some l => {| line := line p; ch := ch p `min` length l |}
  | None => {| line := pred (length d); ch := length (default [] (last d)) |}
  end.

(** Modelled from the spec: the lines of a text, broken at LF, CR and
    CR LF as the host's editor does. *)
Fixpoint split_lines (t : text) : list text :=
  match t with
  | [] => [[]]
  | u :: r =>
      if (u =? 13)%N then
        match r with
        | v :: r' => if (v =? 10)%N then [] :: split_lines r' else [] :: split_lines r
        | [] => [[]; []]
        end
      else if (u =? 10)%N then [] :: split_lines r
      else match split_lines r with
           | l :: ls => (u :: l) :: ls
           | [] => [[u]]
           end
  end.

(** The lines that replace the line [pre ++ post] when [ls] is inserted
    between [pre] and [post]. *)
Fixpoint wrap_lines (pre : text) (ls : list text) (post : text) : list text :=
  match ls with
  | [] => [pre ++ post]
  | [s] => [pre ++ s ++ post]
  | s :: rest => (pre ++ s) :: wrap_lines [] rest post
  end.

(** Modelled from the spec: the document after [t] was spliced in at [p],
    nothing being replaced; a text with line breaks splits the line. *)
Definition insert_text (d : list text) (p : Pos) (t : text) : list text :=
  let p := clip d p in
  let l := default [] (d !! line p) in
  take (line p) d
    ++ wrap_lines (take (ch p) l) (split_lines t) (drop (ch p) l)
    ++ drop (S (line p)) d.

(** A [MarkdownView] of the host and the editor it owns ([view.editor], an
    [Editor] in the host's declarations, never null). *)
Record MarkdownView : Type := { view_id : nat; editor : nat }.

(** What the palette panel shows. *)
Inductive Element : Type :=
  | H2 (t : text)
  | CharacterSection (title : text) (buttons : list text).

(** Calls that leave a handler: host API calls and the plugin's requests to
    render again. *)
Inductive Call : Type :=
  | CNotice (message : text)
  | CReplaceRange (e : nat) (t : text) (p : Pos)
  | CSetCursor (e : nat) (p : Pos)
  | CFocus (e : nat)
  | CSaveData (data : gmap string value)
  | CRefreshView
  | CDisplay.

(** ** The state *)

Record World : Type := {
  (* the host *)
  editors : gmap nat Editor;          (* the editor objects, by handle *)
  focused : option nat;               (* the editor that has input focus *)
  data_json : value;                  (* the stored plugin data, null if none *)
  storage_ok : bool;                  (* whether the host accepts a write *)
  trace : list Call;
  (* MyPlugin *)
  settings : gmap string value;
  ipaView : bool;                     (* whether the palette view was created *)
  (* IPAPaletteView *)
  lastActiveEditor : option nat;
  lastActiveView : option MarkdownView;
  contentEl : list Element
}.

Definition set_editors (x : gmap nat Editor) (w : World) : World :=
  {| editors := x; focused := focused w; data_json := data_json w;
     storage_ok := storage_ok w; trace := trace w; settings := settings w;
     ipaView := ipaView w; lastActiveEditor := lastActiveEditor w;
     lastActiveView := lastActiveView w; contentEl := contentEl w |}.

Definition set_focused (x : option nat) (w : World) : World :=
  {| editors := editors w; focused := x; data_json := data_json w;
     storage_ok := storage_ok w; trace := trace w; settings := settings w;
     ipaView := ipaView w; lastActiveEditor := lastActiveEditor w;
     lastActiveView := lastActiveView w; contentEl := contentEl w |}.

Definition set_data_json (x : value) (w : World) : World :=
  {| editors := editors w; focused := focused w; data_json := x;
     storage_ok := storage_ok w; trace := trace w; settings := settings w;
     ipaView := ipaView w; lastActiveEditor := lastActiveEditor w;
     lastActiveView := lastActiveView w; contentEl := contentEl w |}.

Definition set_trace (x : list Call) (w : World) : World :=
  {| editors := editors w; focused := focused w; data_json := data_json w;
     storage_ok := storage_ok w; trace := x; settings := settings w;
     ipaView := ipaView w; lastActiveEditor := lastActiveEditor w;
     lastActiveView := lastActiveView w; contentEl := contentEl w |}.

Definition set_settings (x : gmap string value) (w : World) : World :=
  {| editors := editors w; focused := focused w; data_json := data_json w;
     storage_ok := storage_ok w; trace := trace w; settings := x;
     ipaView := ipaView w; lastActiveEditor := lastActiveEditor w;
     lastActiveView := lastActiveView w; contentEl := contentEl w |}.

Definition set_ipaView (x : bool) (w : World) : World :=
  {| editors := editors w; focused := focused w; data_json := data_json w;
     storage_ok := storage_ok w; trace := trace w; settings := settings w;
     ipaView := x; lastActiveEditor := lastActiveEditor w;
     lastActiveView := lastActiveView w; contentEl := contentEl w |}.

Definition set_lastActiveEditor (x : option nat) (w : World) : World :=
  {| editors := editors w; focused := focused w; data_json := data_json w;
     storage_ok := storage_ok w; trace := trace w; settings := settings w;
     ipaView := ipaView w; lastActiveEditor := x;
     lastActiveView := lastActiveView w; contentEl := contentEl w |}.

Definition set_lastActiveView (x : option MarkdownView) (w : World) : World :=
  {| editors := editors w; focused := focused w; data_json := data_json w;
     storage_ok := storage_ok w; trace := trace w; settings := settings w;
     ipaView := ipaView w; lastActiveEditor := lastActiveEditor w;
     lastActiveView := x; contentEl := contentEl w |}.

Definition set_contentEl (x : list Element) (w : World) : World :=
  {| editors := editors w; focused := focused w; data_json := data_json w;
     storage_ok := storage_ok w; trace := trace w; settings := settings w;
     ipaView := ipaView w; lastActiveEditor := lastActiveEditor w;
     lastActiveView := lastActiveView w; contentEl := x |}.

(** ** Handlers: state and exceptions *)

(** A handler runs on the host's event loop to completion: it returns or
    throws, and either way leaves a state behind.  A handler is taken as one
    step: other events that the host could dispatch while it waits for a
    write are not interleaved. *)
Inductive Res (A : Type) : Type :=
  | Ok (a : A) (w : World)
  | Throw (e : error) (w : World).
Arguments Ok {A} a w.
Arguments Throw {A} e w.

Definition M (A : Type) : Type := World → Res A.

Definition ret {A} (a : A) : M A := λ w, Ok a w.

Definition bind {A B} (m : M A) (k : A → M B) : M B :=
  λ w, match m w with
       | Ok a w' => k a w'
       | Throw e w' => Throw e w'
       end.

Global Instance M_ret : MRet M := @ret.
Global Instance M_bind : MBind M := λ A B k m, bind m k.

Definition throw {A} (e : error) : M A := λ w, Throw e w.
Definition gets {A} (f : World → A) : M A := λ w, Ok (f w) w.
Definition modify (f : World → World) : M unit := λ w, Ok tt (f w).
Definition call (c : Call) : M unit := modify (λ w, set_trace (trace w ++ [c]) w).
Definition lift {A} (r : error + A) : M A :=
  match r with inl e => throw e | inr a => ret a end.

(** Calling an [async] function without awaiting it: what it throws becomes
    a rejected promise that nobody looks at. *)
Definition detached (m : M unit) : M unit :=
  λ w, match m w with
       | Ok _ w' | Throw _ w' => Ok tt w'
       end.

Fixpoint for_of {A} (l : list A) (body : A → M unit) : M unit :=
  match l with
  | [] => ret tt
  | x :: r => body x ;; for_of r body
  end.

(** The state a handler leaves, whether it returned or threw. *)
Definition world_of {A} (r : Res A) : World :=
  match r with Ok _ w | Throw _ w => w end.

Definition run {A} (m : M A) (w : World) : World := world_of (m w).

Definition returns {A} (r : Res A) : bool :=
  match r with Ok _ _ => true | Throw _ _ => false end.

(** ** The host API *)

(** Modelled from the spec: [editor.getCursor()]. *)
Definition getCursor (e : nat) : M Pos :=
  gets (λ w, cursor (editors w !!! e)).

(** Modelled from the spec: [editor.replaceRange(t, p)] with no end
    position inserts [t] at [p].  The host keeps a cursor that stood at [p]
    before the inserted text. *)
Definition replaceRange (e : nat) (t : text) (p : Pos) : M unit :=
  call (CReplaceRange e t p) ;;
  modify (λ w,
    let ed := editors w !!! e in
    set_editors (<[e := {| doc := insert_text (doc ed) p t; cursor := cursor ed |}]> (editors w)) w).

(** Modelled from the spec: [editor.setCursor(p)]. *)
Definition setCursor (e : nat) (p : Pos) : M unit :=
  call (CSetCursor e p) ;;
  modify (λ w,
    let ed := editors w !!! e in
    set_editors (<[e := {| doc := doc ed; cursor := clip (doc ed) p |}]> (editors w)) w).

(** Modelled from the spec: [editor.focus()]. *)
Definition focus (e : nat) : M unit :=
  call (CFocus e) ;; modify (set_focused (Some e)).

(** Modelled from the spec: [new Notice(message)], the host's transient
    message to the user. *)
Definition Notice (message : text) : M unit := call (CNotice message).

(** Modelled from the spec: [Plugin.loadData()] gives the stored data,
    [null] when nothing was stored. *)
Definition loadData : M value := gets data_json.

(** Modelled from the spec: [Plugin.saveData(data)]; the host stores the
    object, or rejects.  The stored value is kept as it was handed over (its
    JSON text is the host's business). *)
Definition saveData (data : gmap string value) : M unit :=
  call (CSaveData data) ;;
  ok ← gets storage_ok ;
  if ok : bool then modify (set_data_json (VObj data)) else throw StorageError.

(** ** The plugin *)

Definition DEFAULT_SETTINGS : gmap string value :=
  list_to_map
    [ ("showVowels"%string, VBool true);
      ("showConsonants"%string, VBool true);
      ("showDiacritics"%string, VBool true);
      ("showSuprasegmentals"%string, VBool true);
      ("categoryOrder"%string,
        VArr [str "Vowels"; str "Consonants"; str "Diacritics"; str "Suprasegmentals"]) ].

(** *** [IPAPaletteView] *)

(** The constructor: both fields start as [null]. *)
Definition new_IPAPaletteView : M unit :=
  modify (set_lastActiveEditor None) ;;
  modify (set_lastActiveView None) ;;
  modify (set_contentEl []).

(** The handler of ['active-leaf-change']; [activeView] is what
    [getActiveViewOfType(MarkdownView)] returns when the event fires. *)
Definition on_active_leaf_change (activeView : option MarkdownView) : M unit :=
  match activeView with
  | Some v =>
      modify (set_lastActiveView (Some v)) ;;
      modify (set_lastActiveEditor (Some (editor v)))
  | None => ret tt
  end.

Definition ipaVowels : list text :=
  [ [0x69]; [0x79]; [0x268]; [0x289]; [0x26f]; [0x75];
    [0x26a]; [0x28f]; [0x28a];
    [0x65]; [0xf8]; [0x258]; [0x275]; [0x264]; [0x6f];
    [0x259];
    [0x25b]; [0x153]; [0x25c]; [0x25e]; [0x28c]; [0x254];
    [0xe6]; [0x250];
    [0x61]; [0x276]; [0x251]; [0x252] ]%N.

Definition ipaConsonants : list text :=
  [ [0x70]; [0x62]; [0x74]; [0x64]; [0x288]; [0x256]; [0x63]; [0x25f]; [0x6b];
    [0x67]; [0x71]; [0x262]; [0x294];
    [0x6d]; [0x271]; [0x6e]; [0x273]; [0x272]; [0x14b]; [0x274];
    [0x299]; [0x72]; [0x280];
    [0x27e]; [0x27d];
    [0x278]; [0x3b2]; [0x66]; [0x76]; [0x3b8]; [0xf0]; [0x73]; [0x7a]; [0x283];
    [0x292]; [0x282]; [0x290]; [0xe7]; [0x29d]; [0x78]; [0x263]; [0x3c7];
    [0x281]; [0x127]; [0x295]; [0x68]; [0x266];
    [0x26c]; [0x26e]; [0x28b]; [0x279]; [0x27b]; [0x6a]; [0x270]; [0x6c];
    [0x26d]; [0x28e]; [0x29f] ]%N.

Definition diacritics : list text :=
  [ [0x325]; [0x32c]; [0x339]; [0x31c]; [0x31f]; [0x320]; [0x308]; [0x33d];
    [0x329]; [0x32f]; [0x2de]; [0x324]; [0x330]; [0x33c]; [0x32a]; [0x33a];
    [0x33b]; [0x303]; [0x207f]; [0x2e1]; [0x31a]; [0x318]; [0x319]; [0x31d];
    [0x31e]; [0x306]; [0x30b]; [0x301]; [0x304]; [0x300]; [0x30f]; [0x30c];
    [0x302]; [0x1dc4]; [0x1dc5]; [0x1dc8]; [0x2193]; [0x2191]; [0x2197];
    [0x2198] ]%N.

Definition suprasegmentals : list text :=
  [ [0x2c8]; [0x2cc]; [0x2d0]; [0x2d1]; [0x306]; [0x7c]; [0x2016]; [0x2e];
    [0x203f]; [0x361] ]%N.

(** One section: a heading and a button per character; the button's click
    handler is [insertCharacterAtCursor] of its character. *)
Definition createCharacterSection (title : string) (characters : list text) : M unit :=
  modify (λ w, set_contentEl (contentEl w ++ [CharacterSection (lit title) characters]) w).

Definition onOpen : M unit :=
  modify (set_contentEl []) ;;
  modify (λ w, set_contentEl (contentEl w ++ [H2 (lit "IPA Palette")]) w) ;;
  categoryOrder ← gets (λ w, get (settings w) "categoryOrder") ;
  categories ← lift (iterate categoryOrder) ;
  for_of categories (λ category,
    if is_string "Vowels" category then
      show ← gets (λ w, get (settings w) "showVowels") ;
      if truthy show then createCharacterSection "Vowels" ipaVowels else ret tt
    else if is_string "Consonants" category then
      show ← gets (λ w, get (settings w) "showConsonants") ;
      if truthy show then createCharacterSection "Consonants" ipaConsonants else ret tt
    else if is_string "Diacritics" category then
      show ← gets (λ w, get (settings w) "showDiacritics") ;
      if truthy show then createCharacterSection "Diacritics" diacritics else ret tt
    else if is_string "Suprasegmentals" category then
      show ← gets (λ w, get (settings w) "showSuprasegmentals") ;
      if truthy show then createCharacterSection "Suprasegmentals" suprasegmentals
      else ret tt
    else ret tt).

Definition insertCharacterAtCursor (char : text) : M unit :=
  lastEditor ← gets lastActiveEditor ;
  lastView ← gets lastActiveView ;
  match lastEditor, lastView with
  | Some e, Some v =>
      c ← getCursor e ;
      replaceRange e char c ;;
      setCursor e {| line := line c; ch := ch c + length char |} ;;
      focus (editor v)
  | _, _ =>
      Notice (lit "No active markdown editor found. Please click in an editor first.")
  end.

Definition onClose : M unit := modify (set_contentEl []).

(** *** [MyPlugin] *)

(** The view factory handed to [registerView]. *)
Definition create_view : M unit :=
  new_IPAPaletteView ;; modify (set_ipaView true).

Definition loadSettings : M unit :=
  data ← loadData ;
  modify (set_settings (Object_assign ∅ [VObj DEFAULT_SETTINGS; data])).

Definition saveSettings : M unit :=
  s ← gets settings ; saveData s.

(** [onOpen] is [async] and is not awaited here. *)
Definition refreshView : M unit :=
  call CRefreshView ;;
  v ← gets ipaView ;
  if v : bool then detached onOpen else ret tt.

(** *** [IPASettingTab] *)

(** The settings page itself is not modelled: [display] is recorded as a
    call.  It lists the entries of [categoryOrder]; entry [i] carries the
    handlers [dragstart i] and [drop _ i]. *)
Definition display : M unit := call CDisplay.

(** The [onChange] handlers of the four toggles. *)
Definition onChange (key : string) (value : bool) : M unit :=
  modify (λ w, set_settings (<[key := VBool value]> (settings w)) w) ;;
  saveSettings ;;
  refreshView.

Definition showVowels_onChange : bool → M unit := onChange "showVowels".
Definition showConsonants_onChange : bool → M unit := onChange "showConsonants".
Definition showDiacritics_onChange : bool → M unit := onChange "showDiacritics".
Definition showSuprasegmentals_onChange : bool → M unit := onChange "showSuprasegmentals".

(** ['dragstart'] on entry [i]: the data put on the drag. *)
Definition dragstart (i : nat) : text := toString i.

(** ['drop'] on entry [i], with the ['text/plain'] data of the drag. *)
Definition drop_on (data : text) (i : nat) : M unit :=
  let fromIndex := parseInt data in
  let toIndex := Z.of_nat i in
  if bool_decide (fromIndex ≠ Some toIndex) then
    categoryOrder ← gets (λ w, get (settings w) "categoryOrder") ;
    newOrder ← lift (iterate categoryOrder) ;
    let '(newOrder, removed) := splice newOrder fromIndex 1 [] in
    let moved := default VUndefined (head removed) in
    let '(newOrder, _) := splice newOrder (Some toIndex) 0 [moved] in
    modify (λ w, set_settings (<["categoryOrder" := VArr newOrder]> (settings w)) w) ;;
    saveSettings ;;
    refreshView ;;
    display
  else ret tt.

(** ** The operations of the two components *)

(** The four categories that [onOpen] knows: the cases of its [switch]. *)
Inductive Category : Type := Vowels | Consonants | Diacritics | Suprasegmentals.

Global Instance Category_eq_dec : EqDecision Category.
Proof. solve_decision. Defined.

Definition all_categories : list Category :=
  [Vowels; Consonants; Diacritics; Suprasegmentals].

Definition name (c : Category) : string :=
  match c with
  | Vowels => "Vowels"
  | Consonants => "Consonants"
  | Diacritics => "Diacritics"
  | Suprasegmentals => "Suprasegmentals"
  end.

Definition show_key (c : Category) : string :=
  match c with
  | Vowels => "showVowels"
  | Consonants => "showConsonants"
  | Diacritics => "showDiacritics"
  | Suprasegmentals => "showSuprasegmentals"
  end.

Definition characters (c : Category) : list text :=
  match c with
  | Vowels => ipaVowels
  | Consonants => ipaConsonants
  | Diacritics => diacritics
  | Suprasegmentals => suprasegmentals
  end.

(** The category an entry of [categoryOrder] stands for, if any. *)
Definition category_of (v : value) : option Category :=
  if is_string "Vowels" v then Some Vowels
  else if is_string "Consonants" v then Some Consonants
  else if is_string "Diacritics" v then Some Diacritics
  else if is_string "Suprasegmentals" v then Some Suprasegmentals
  else None.

Definition category_name (c : Category) : value := str (name c).

(** The visibility flag of a category, as [onOpen] tests it. *)
Definition visible (s : gmap string value) (c : Category) : bool :=
  truthy (get s (show_key c)).

(** The category order, when it is an array. *)
Definition order_of (w : World) : list value :=
  match get (settings w) "categoryOrder" with
  | VArr l => l
  | _ => []
  end.

(** [setVisibility(category, b)]: the toggle of the category changes. *)
Definition setVisibility (c : Category) (b : bool) : M unit :=
  match c with
  | Vowels => showVowels_onChange b
  | Consonants => showConsonants_onChange b
  | Diacritics => showDiacritics_onChange b
  | Suprasegmentals => showSuprasegmentals_onChange b
  end.

(** [reorder]: the entry at index [i] of the list is dragged and dropped
    on the entry at index [newIndex]. *)
Definition reorder (i newIndex : nat) : M unit :=
  drop_on (dragstart i) newIndex.

(** The titles of the sections of a rendered panel. *)
Definition section_titles (els : list Element) : list text :=
  omap (λ el, match el with CharacterSection t _ => Some t | H2 _ => None end) els.

(** [getRenderPlan]: the sections that a render of the current settings
    shows, in order. *)
Definition getRenderPlan (w : World) : list text :=
  section_titles (contentEl (run onOpen w)).

(** What the handlers of an existing palette view and of the settings page
    can be asked to do. *)
Inductive Event : Type :=
  | EActiveLeafChange (activeView : option MarkdownView)
  | EClick (char : text)
  | EOpen
  | EClose
  | EToggle (c : Category) (b : bool)
  | EDrop (data : text) (i : nat).

Definition handle (ev : Event) : M unit :=
  match ev with
  | EActiveLeafChange a => on_active_leaf_change a
  | EClick char => insertCharacterAtCursor char
  | EOpen => onOpen
  | EClose => onClose
  | EToggle c b => setVisibility c b
  | EDrop data i => drop_on data i
  end.

(** The host dispatches the events one after the other; a handler that
    throws does not stop the next one. *)
Definition run_events (evs : list Event) (w : World) : World :=
  foldl (λ w ev, run (handle ev) w) w evs.

(** The view of the last focus change that reported an editor. *)
Definition last_editor_view (evs : list Event) : option MarkdownView :=
  last (omap (λ ev, match ev with EActiveLeafChange (Some v) => Some v | _ => None end) evs).

(** The text of a symbol has no line break. *)
Definition no_line_break (t : text) : Prop :=
  Forall (λ u, u ≠ 10%N ∧ u ≠ 13%N) t.

Global Instance no_line_break_dec (t : text) : Decision (no_line_break t).
Proof. unfold no_line_break. apply _. Defined.

(** A world to try things on: defaults loaded, palette open, one note with
    two lines and the cursor on the second. *)
Definition sample_world : World :=
  {| editors := {[ 1%nat := {| doc := [lit "pat"; lit "kt"];
                               cursor := {| line := 1; ch := 1 |} |} ]};
     focused := None; data_json := VNull; storage_ok := true; trace := [];
     settings := DEFAULT_SETTINGS; ipaView := true;
     lastActiveEditor := None; lastActiveView := None;
     contentEl := [] |}.

Definition sample_view : MarkdownView := {| view_id := 7; editor := 1 |}.

(** ** Notions used to state the properties *)

(** A decimal digit, as a code unit. *)
Definition is_digit (u : N) : Prop := (48 ≤ u ≤ 57)%N.

(** The list after one entry moved from index [i] to index [j]. *)
Definition moved_to {A} (a : list A) (i j : nat) (x : A) : list A :=
  take j (delete i a) ++ x :: drop j (delete i a).

(** A handler leaves an observation of the state alone, whether it returns
    or throws. *)
Definition preserves {A B} (f : World → B) (m : M A) : Prop :=
  ∀ w, f (world_of (m w)) = f w.

(** What [drop_on] does after it has computed the new order. *)
Definition commit_order (newOrder : list value) : M unit :=
  modify (λ w, set_settings (<["categoryOrder" := VArr newOrder]> (settings w)) w) ;;
  saveSettings ;;
  refreshView ;;
  display.

Definition title (c : Category) : text := lit (name c).

(** The section that an entry of the order produces, if any. *)
Definition section_of (s : gmap string value) (v : value) : option Element :=
  c ← category_of v ;
  if visible s c then Some (CharacterSection (title c) (characters c)) else None.

(** The panel that [onOpen] leaves for given settings. *)
Definition rendered (s : gmap string value) : list Element :=
  match iterate (get s "categoryOrder") with
  | inr l => H2 (lit "IPA Palette") :: omap (section_of s) l
  | inl _ => [H2 (lit "IPA Palette")]
  end.

Definition no_editor_message : text :=
  lit "No active markdown editor found. Please click in an editor first.".

Global Instance title_inj : Inj (=) (=) title.
Proof. intros [] []; by intros [=]. Qed.

(** The order that [drop_on] computes from the array [order], the parsed
    drag data and the index of the entry dropped on: its two [splice]s. *)
Definition dropped_order (order : list value) (fromIndex : option Z) (i : nat)
  : list value :=
  let '(newOrder, removed) := splice order fromIndex 1 [] in
  let moved := default VUndefined (head removed) in
  (splice newOrder (Some (Z.of_nat i)) 0 [moved]).1.

(** The sample world on a host that rejects writes. *)
Definition read_only_world : World :=
  {| editors := editors sample_world; focused := None; data_json := VNull;
     storage_ok := false; trace := []; settings := DEFAULT_SETTINGS;
     ipaView := true; lastActiveEditor := None; lastActiveView := None;
     contentEl := [] |}.

(** ** The plugin in the workspace *)

(** Modelled from the spec: the part of the host's workspace behind the
    panel lifecycle (open, reveal if it exists, close): the leaves that show
    a view of type [IPA_VIEW_TYPE], what [getRightLeaf(false)] gives, and the
    leaves handed to [revealLeaf], oldest first.  The views of these leaves
    are the one palette view of [plugin]. *)
Record Workspace : Type := {
  plugin : World;
  leaves : list nat;
  rightLeaf : option nat;
  revealed : list nat
}.

(** How an [async] method of the plugin ends, and the workspace it leaves. *)
Inductive Outcome : Type :=
  | Done (ws : Workspace)
  | Failed (e : error) (ws : Workspace).

Definition state_of (o : Outcome) : Workspace :=
  match o with Done ws | Failed _ ws => ws end.

(** Modelled from the spec: [workspace.revealLeaf(leaf)]. *)
Definition revealLeaf (leaf : nat) (ws : Workspace) : Workspace :=
  {| plugin := plugin ws; leaves := leaves ws; rightLeaf := rightLeaf ws;
     revealed := revealed ws ++ [leaf] |}.

(** Modelled from the spec: [leaf.setViewState({type: IPA_VIEW_TYPE,
    active: true})]: the host builds the view with the factory that [onload]
    registered ([create_view]), shows it in the leaf and opens it. *)
Definition setViewState (leaf : nat) (ws : Workspace) : Workspace :=
  {| plugin := run onOpen (run create_view (plugin ws));
     leaves := leaves ws ++ [leaf]; rightLeaf := rightLeaf ws;
     revealed := revealed ws |}.

(** Modelled from the spec: [workspace.detachLeavesOfType(IPA_VIEW_TYPE)]:
    the host closes the view of each leaf and removes the leaves. *)
Definition detachLeavesOfType (ws : Workspace) : Workspace :=
  {| plugin := foldr (λ _, run onClose) (plugin ws) (leaves ws);
     leaves := []; rightLeaf := rightLeaf ws; revealed := revealed ws |}.

(** [MyPlugin.activateView]; calling [setViewState] on the [null] that
    [getRightLeaf] may give is a [TypeError]. *)
Definition activateView (ws : Workspace) : Outcome :=
  let existingLeaves := leaves ws in
  match existingLeaves with
  | leaf :: _ => Done (revealLeaf leaf ws)
  | [] =>
      match rightLeaf ws with
      | Some leaf => Done (setViewState leaf ws)
      | None => Failed TypeError ws
      end
  end.

(** [MyPlugin.onunload]. *)
Definition onunload (ws : Workspace) : Workspace := detachLeavesOfType ws.

(** [MyPlugin.onload] up to its registrations with the host (the view
    factory, the command and the settings tab, which give the host
    [create_view], [activateView] and the handlers of the settings page to
    call): the settings are loaded. *)
Definition onload (ws : Workspace) : Workspace :=
  {| plugin := run loadSettings (plugin ws); leaves := leaves ws;
     rightLeaf := rightLeaf ws; revealed := revealed ws |}.

(** What happens to a loaded plugin: the command or the layout-ready
    callback runs [activateView], or the host dispatches an event to the
    handlers of the view and the settings page.  The host calls [onClose]
    when it closes the view of a palette leaf, and the leaf is gone with
    it. *)
Inductive Step : Type :=
  | SActivate
  | SEvent (ev : Event).

Definition step (ws : Workspace) (s : Step) : Workspace :=
  match s with
  | SActivate => state_of (activateView ws)
  | SEvent ev =>
      {| plugin := run (handle ev) (plugin ws);
         leaves := match ev with
                   | EClose => tail (leaves ws)
                   | _ => leaves ws
                   end;
         rightLeaf := rightLeaf ws; revealed := revealed ws |}
  end.

Definition run_steps (steps : list Step) (ws : Workspace) : Workspace :=
  foldl step ws steps.


(** A workspace to try things on: the sample world, no palette leaf yet. *)
Definition sample_workspace : Workspace :=
  {| plugin := sample_world; leaves := []; rightLeaf := Some 5%nat; revealed := [] |}.

(** The categories that the order lists, entry by entry in its sequence:
    none when [categoryOrder] cannot be iterated. *)
Definition listed (s : gmap string value) : list Category :=
  match iterate (get s "categoryOrder") with
  | inr l => omap category_of l
  | inl _ => []
  end.

(** * Properties *)

(** ** [parseInt] reads back what [toString] wrote *)

Example parseInt_samples :
  parseInt (lit "2") = Some 2 ∧ parseInt (lit " -12px") = Some (-12) ∧
  parseInt (lit "0x1f") = Some 31 ∧ parseInt (lit "Vowels") = None ∧
  parseInt (lit "") = None ∧ parseInt (toString 13) = Some 13.
Proof. repeat split; reflexivity. Qed.

Lemma digit_cases u :
  is_digit u →
  u ∈ [48; 49; 50; 51; 52; 53; 54; 55; 56; 57]%N.
Proof.
  intros [H1 H2]. rewrite !elem_of_cons.
  assert (u = 48 ∨ u = 49 ∨ u = 50 ∨ u = 51 ∨ u = 52 ∨ u = 53 ∨ u = 54
          ∨ u = 55 ∨ u = 56 ∨ u = 57)%N as Hc by lia.
  rewrite elem_of_nil. tauto.
Qed.

Lemma pretty_N_char_code d :
  (d < 10)%N → Ascii.N_of_ascii (pretty_N_char d) = (48 + d)%N.
Proof.
  intros Hd.
  assert (d = 0 ∨ d = 1 ∨ d = 2 ∨ d = 3 ∨ d = 4 ∨ d = 5 ∨ d = 6 ∨ d = 7
          ∨ d = 8 ∨ d = 9)%N as Hc by lia.
  repeat (destruct Hc as [-> | Hc]; [reflexivity |]). by subst.
Qed.

Lemma digit_value_decimal d :
  (d < 10)%N → digit_value 10 (48 + d) = Some d.
Proof.
  intros Hd.
  assert (d = 0 ∨ d = 1 ∨ d = 2 ∨ d = 3 ∨ d = 4 ∨ d = 5 ∨ d = 6 ∨ d = 7
          ∨ d = 8 ∨ d = 9)%N as Hc by lia.
  repeat (destruct Hc as [-> | Hc]; [reflexivity |]). by subst.
Qed.

(** The digits that [pretty_N_go] puts in front of [s] are read back as
    the number. *)
Lemma parse_digits_pretty_go x :
  ∀ s acc, (0 < x)%N →
    ∃ k, parse_digits 10 acc (lit (pretty_N_go x s))
         = parse_digits 10 (Some (default 0 acc * 10 ^ k + x)%N) (lit s).
Proof.
  induction (N.lt_wf_0 x) as [x _ IH]. intros s acc Hx.
  rewrite pretty_N_go_step by done.
  assert (x `mod` 10 < 10)%N as Hd by (apply N.mod_lt; lia).
  assert (x = 10 * (x `div` 10) + x `mod` 10)%N as Hx10 by (apply N.div_mod; lia).
  destruct (decide (x `div` 10 = 0)%N) as [Hz | Hnz].
  - rewrite Hz, pretty_N_go_0. exists 1%N. cbn [lit parse_digits].
    rewrite pretty_N_char_code, digit_value_decimal by done.
    do 2 f_equal. simpl. lia.
  - destruct (IH (x `div` 10)%N) with
      (s := String (pretty_N_char (x `mod` 10)) s) (acc := acc) as [k Hk].
    + apply N.div_lt; lia.
    + lia.
    + exists (k + 1)%N. rewrite Hk. cbn [lit parse_digits].
      rewrite pretty_N_char_code, digit_value_decimal by done.
      do 2 f_equal. cbn [default]. rewrite N.pow_add_r, N.pow_1_r.
      generalize (10 ^ k)%N (x `div` 10)%N (x `mod` 10)%N Hx10. intros p q r ->.
      unfold id. generalize (default 0%N acc). intros d. lia.
Qed.

Lemma pretty_go_digits x :
  ∀ s, Forall is_digit (lit s) → Forall is_digit (lit (pretty_N_go x s)).
Proof.
  induction (N.lt_wf_0 x) as [x _ IH]. intros s Hs.
  destruct (decide (x = 0)%N) as [-> | Hx]; [by rewrite pretty_N_go_0 |].
  rewrite pretty_N_go_step by lia. apply IH; [apply N.div_lt; lia |].
  assert (x `mod` 10 < 10)%N as Hd by (apply N.mod_lt; lia).
  cbn [lit]. constructor; [| done].
  rewrite pretty_N_char_code by done. unfold is_digit.
  revert Hd. generalize (x `mod` 10)%N. lia.
Qed.

(** On a non-empty string of decimal digits [parseInt] skips nothing. *)
Lemma parseInt_digits t :
  t ≠ [] → Forall is_digit t →
  parseInt t = Z.of_N <$> parse_digits 10 None t.
Proof.
  intros Hne Hd. destruct t as [| u r]; [done |].
  apply Forall_cons in Hd as [Hu Hr].
  assert (∀ n : option N, (λ n, 1 * Z.of_N n) <$> n = Z.of_N <$> n) as Hone.
  { intros [n |]; simpl; [f_equal; lia | done]. }
  apply digit_cases in Hu. rewrite !elem_of_cons in Hu.
  destruct Hu as [-> | Hu].
  - destruct r as [| v r]; [reflexivity |].
    apply Forall_cons in Hr as [Hv _]. apply digit_cases in Hv.
    rewrite !elem_of_cons in Hv.
    repeat (destruct Hv as [-> | Hv]; [apply Hone |]). by apply elem_of_nil in Hv.
  - repeat (destruct Hu as [-> | Hu]; [apply Hone |]). by apply elem_of_nil in Hu.
Qed.

Lemma parseInt_toString (i : nat) : parseInt (toString i) = Some (Z.of_nat i).
Proof.
  unfold toString, pretty, pretty_nat, pretty, pretty_N.
  destruct (decide (N.of_nat i = 0%N)) as [Hz | Hnz].
  - assert (i = 0%nat) as -> by lia. reflexivity.
  - assert (0 < N.of_nat i)%N as Hpos by lia.
    pose proof (pretty_go_digits (N.of_nat i) "" (Forall_nil_2 _)) as Hd.
    destruct (parse_digits_pretty_go (N.of_nat i) "" None Hpos) as [k Hk].
    rewrite parseInt_digits; [| | done].
    + rewrite Hk. simpl. f_equal. lia.
    + intros Hnil. rewrite Hnil in Hk. simpl in Hk. done.
Qed.

(** ** [splice] *)

Lemma splice_remove {A} (a : list A) (i : nat) (x : A) :
  a !! i = Some x →
  splice a (Some (Z.of_nat i)) 1 [] = (delete i a, [x]).
Proof.
  intros Hi. pose proof (lookup_lt_Some _ _ _ Hi) as Hlt.
  unfold splice. cbn [to_integer default id].
  destruct (Z.ltb_spec (Z.of_nat i) 0) as [? | _]; [lia |].
  replace (Z.min (Z.of_nat i) (Z.of_nat (length a))) with (Z.of_nat i) by lia.
  replace (Z.min (Z.max 1 0) (Z.of_nat (length a) - Z.of_nat i)) with 1 by lia.
  rewrite Nat2Z.id. change (Z.to_nat 1) with 1%nat.
  rewrite (drop_S _ _ _ Hi), app_nil_l, Nat.add_1_r.
  by rewrite delete_take_drop.
Qed.

Lemma splice_insert {A} (a : list A) (j : nat) (x : A) :
  (j ≤ length a)%nat →
  splice a (Some (Z.of_nat j)) 0 [x] = (take j a ++ x :: drop j a, []).
Proof.
  intros Hj. unfold splice. cbn [to_integer default id].
  destruct (Z.ltb_spec (Z.of_nat j) 0) as [? | _]; [lia |].
  replace (Z.min (Z.of_nat j) (Z.of_nat (length a))) with (Z.of_nat j) by lia.
  replace (Z.min (Z.max 0 0) (Z.of_nat (length a) - Z.of_nat j)) with 0 by lia.
  rewrite Nat2Z.id. change (Z.to_nat 0) with 0%nat.
  by rewrite Nat.add_0_r.
Qed.

Section moved_to.
Context {A : Type} (a : list A) (i j : nat) (x : A).
Hypothesis Hi : a !! i = Some x.
Hypothesis Hj : (j < length a)%nat.

Lemma moved_to_fits : (j ≤ length (delete i a))%nat.
Proof.
  pose proof (lookup_lt_Some _ _ _ Hi). rewrite length_delete by eauto. lia.
Qed.

Lemma moved_to_Permutation : moved_to a i j x ≡ₚ a.
Proof.
  unfold moved_to. rewrite <- Permutation_middle, take_drop.
  symmetry. by apply delete_Permutation.
Qed.

Lemma moved_to_lookup : moved_to a i j x !! j = Some x.
Proof.
  unfold moved_to. pose proof moved_to_fits.
  rewrite lookup_app_r by (rewrite length_take; lia).
  rewrite length_take. by replace (j - j `min` length (delete i a))%nat with 0%nat by lia.
Qed.

Lemma moved_to_others : delete j (moved_to a i j x) = delete i a.
Proof.
  unfold moved_to. pose proof moved_to_fits.
  assert (length (take j (delete i a)) = j) as Hlen by (rewrite length_take; lia).
  rewrite delete_take_drop, take_app_length' by done.
  rewrite cons_middle, app_assoc, drop_app_length'.
  - apply take_drop.
  - rewrite length_app, Hlen. simpl. lia.
Qed.
End moved_to.

(** ** Reasoning about handlers *)

Lemma preserves_ret {A B} (f : World → B) (a : A) : preserves f (mret a).
Proof. done. Qed.

Lemma preserves_bind {A B C} (f : World → C) (m : M A) (k : A → M B) :
  preserves f m → (∀ a, preserves f (k a)) → preserves f (m ≫= k).
Proof.
  intros Hm Hk w. unfold mbind, M_bind, bind. specialize (Hm w).
  destruct (m w) as [a w' | e w']; simpl in *; [| done].
  by rewrite Hk.
Qed.

Lemma preserves_throw {A B} (f : World → B) (e : error) : preserves f (@throw A e).
Proof. done. Qed.

Lemma preserves_gets {A B} (f : World → B) (g : World → A) : preserves f (gets g).
Proof. done. Qed.

Lemma preserves_lift {A B} (f : World → B) (r : error + A) : preserves f (lift r).
Proof. by destruct r. Qed.

Lemma preserves_modify {B} (f : World → B) (g : World → World) :
  (∀ w, f (g w) = f w) → preserves f (modify g).
Proof. intros H w. apply H. Qed.

Lemma preserves_call {B} (f : World → B) (c : Call) :
  (∀ t w, f (set_trace t w) = f w) → preserves f (call c).
Proof. intros H w. apply H. Qed.

Lemma preserves_detached {B} (f : World → B) (m : M unit) :
  preserves f m → preserves f (detached m).
Proof. intros H w. specialize (H w). unfold detached. by destruct (m w). Qed.

Lemma preserves_for_of {A B} (f : World → B) (l : list A) (body : A → M unit) :
  (∀ x, preserves f (body x)) → preserves f (for_of l body).
Proof.
  intros H. induction l as [| x l IH]; [done |].
  by apply preserves_bind.
Qed.

Ltac frame_step :=
  lazymatch goal with
  | |- preserves _ (_ ≫= _) => apply preserves_bind; [| intros ?]
  | |- preserves _ (mret _) => apply preserves_ret
  | |- preserves _ (ret _) => apply preserves_ret
  | |- preserves _ (throw _) => apply preserves_throw
  | |- preserves _ (gets _) => apply preserves_gets
  | |- preserves _ (lift _) => apply preserves_lift
  | |- preserves _ (modify _) => apply preserves_modify; intros ?; reflexivity
  | |- preserves _ (call _) => apply preserves_call; intros ? ?; reflexivity
  | |- preserves _ (detached _) => apply preserves_detached
  | |- preserves _ (for_of _ _) => apply preserves_for_of; intros ?
  | |- preserves _ (if ?b then _ else _) => destruct b
  | |- preserves _ (match ?x with _ => _ end) => destruct x
  | |- preserves _ (let '(_, _) := ?x in _) => destruct x
  end.

Ltac frame := repeat frame_step.

Lemma saveData_preserves {B} (f : World → B) (data : gmap string value) :
  (∀ t w, f (set_trace t w) = f w) → (∀ x w, f (set_data_json x w) = f w) →
  preserves f (saveData data).
Proof.
  intros Ht Hd w. unfold saveData, call, modify, mbind, M_bind, bind, gets, throw.
  simpl. destruct (storage_ok w); simpl; by rewrite ?Hd, ?Ht.
Qed.

Lemma saveSettings_preserves {B} (f : World → B) :
  (∀ t w, f (set_trace t w) = f w) → (∀ x w, f (set_data_json x w) = f w) →
  preserves f saveSettings.
Proof.
  intros. unfold saveSettings. apply preserves_bind; [apply preserves_gets |].
  intros ?. by apply saveData_preserves.
Qed.

Lemma onOpen_preserves {B} (f : World → B) :
  (∀ x w, f (set_contentEl x w) = f w) → preserves f onOpen.
Proof.
  intros H. unfold onOpen, createCharacterSection. 
  repeat first [ apply preserves_modify; intros ?; apply H | frame_step ].
Qed.

Lemma refreshView_preserves {B} (f : World → B) :
  (∀ t w, f (set_trace t w) = f w) → (∀ x w, f (set_contentEl x w) = f w) →
  preserves f refreshView.
Proof.
  intros Ht Hc. unfold refreshView.
  apply preserves_bind; [by apply preserves_call |]. intros _.
  apply preserves_bind; [apply preserves_gets |]. intros [|]; [| done].
  by apply preserves_detached, onOpen_preserves.
Qed.

Lemma display_preserves {B} (f : World → B) :
  (∀ t w, f (set_trace t w) = f w) → preserves f display.
Proof. intros. by apply preserves_call. Qed.

(** ** Reordering *)

Lemma reorder_same_index (i : nat) (w : World) : reorder i i w = Ok tt w.
Proof.
  unfold reorder, drop_on, dragstart. rewrite parseInt_toString.
  by rewrite bool_decide_eq_false_2 by (intros H; by apply H).
Qed.

Lemma reorder_moves (w : World) (order : list value) (x : value) (i j : nat) :
  get (settings w) "categoryOrder" = VArr order →
  order !! i = Some x → (j < length order)%nat → i ≠ j →
  reorder i j w = commit_order (moved_to order i j x) w.
Proof.
  intros Hget Hi Hj Hne.
  unfold reorder, drop_on, dragstart. rewrite parseInt_toString.
  rewrite bool_decide_eq_true_2 by (intros [= ?]; lia).
  unfold mbind, M_bind, bind, gets. rewrite Hget. cbn [iterate lift ret].
  rewrite (splice_remove _ _ _ Hi). cbn [head default id].
  rewrite splice_insert by (by eapply moved_to_fits).
  reflexivity.
Qed.

Lemma commit_order_settings (newOrder : list value) (w : World) :
  settings (run (commit_order newOrder) w)
  = <["categoryOrder" := VArr newOrder]> (settings w).
Proof.
  unfold run, commit_order.
  change (world_of ((modify ?f ≫= ?k) w)) with (world_of (k tt (f w))).
  rewrite (preserves_bind settings saveSettings); [done | |].
  - by apply saveSettings_preserves.
  - intros _. apply preserves_bind; [by apply refreshView_preserves |].
    intros _. by apply display_preserves.
Qed.

Lemma reorder_order_of (w : World) (order : list value) (x : value) (i j : nat) :
  get (settings w) "categoryOrder" = VArr order →
  order !! i = Some x → (j < length order)%nat →
  get (settings (run (reorder i j) w)) "categoryOrder"
  = VArr (if decide (i = j) then order else moved_to order i j x).
Proof.
  intros Hget Hi Hj. unfold run. destruct (decide (i = j)) as [-> | Hne].
  - by rewrite reorder_same_index.
  - rewrite (reorder_moves _ _ _ _ _ Hget Hi Hj Hne).
    fold (run (commit_order (moved_to order i j x)) w).
    rewrite commit_order_settings. unfold get. by rewrite lookup_insert_eq.
Qed.

Lemma default_order (w0 : World) :
  get (settings (set_settings DEFAULT_SETTINGS w0)) "categoryOrder"
  = VArr (category_name <$> all_categories).
Proof. reflexivity. Qed.

Lemma reorder_default_example (w0 : World) :
  order_of (run (reorder 2 0) (set_settings DEFAULT_SETTINGS w0))
  = [str "Diacritics"; str "Vowels"; str "Consonants"; str "Suprasegmentals"].
Proof.
  unfold order_of.
  by rewrite (reorder_order_of _ _ (str "Diacritics") 2 0 (default_order w0))
    by (done || (simpl; lia)).
Qed.

(** A drop whose data did not come from [dragstart] on an entry is outside
    [reorder]: data that names no index of the list moves nothing and puts
    [undefined] in the list. *)
Example drop_foreign_data :
  order_of (run (drop_on (lit "7") 0) sample_world)
  = VUndefined :: (category_name <$> all_categories) ∧
  order_of (run (drop_on (lit "Vowels") 2) sample_world)
  = [str "Consonants"; str "Diacritics"; str "Vowels"; str "Suprasegmentals"].
Proof. split; reflexivity. Qed.

(** C1.  When the order is a permutation of the four category names,
    dragging the entry of a category (at index [i]) onto the entry at
    [newIndex] leaves a permutation of the four names, with the category at
    [newIndex] and the other entries in the order they had; from the default
    order, moving Diacritics (index 2) to index 0 gives Diacritics, Vowels,
    Consonants, Suprasegmentals. *)
Theorem reorder_permutation
    (w : World) (order : list value) (category : value) (i newIndex : nat) :
  get (settings w) "categoryOrder" = VArr order →
  order ≡ₚ category_name <$> all_categories →
  order !! i = Some category →
  (newIndex < length order)%nat →
  let w' := run (reorder i newIndex) w in
  get (settings w') "categoryOrder" = VArr (order_of w') ∧
  order_of w' ≡ₚ category_name <$> all_categories ∧
  order_of w' !! newIndex = Some category ∧
  delete newIndex (order_of w') = delete i order ∧
  ∀ w0, order_of (run (reorder 2 0) (set_settings DEFAULT_SETTINGS w0))
        = [str "Diacritics"; str "Vowels"; str "Consonants"; str "Suprasegmentals"].
Proof.
  intros Hget Hperm Hi Hj w'.
  pose proof (reorder_order_of _ _ _ _ _ Hget Hi Hj) as Hw'. fold w' in Hw'.
  unfold order_of. rewrite Hw'. split; [done |].
  destruct (decide (i = newIndex)) as [<- | Hne].
  - repeat split; try done.
    apply reorder_default_example.
  - repeat split.
    + by rewrite moved_to_Permutation.
    + by apply moved_to_lookup.
    + by apply moved_to_others.
    + apply reorder_default_example.
Qed.

Lemma reorder_permutation_witness :
  order_of (run (reorder 1 3) sample_world) !! 3%nat = Some (str "Consonants").
Proof.
  apply (reorder_permutation sample_world
           (category_name <$> all_categories) (str "Consonants") 1 3);
    [reflexivity | reflexivity | reflexivity | simpl; lia].
Defined.

(** ** Rendering *)

Lemma set_contentEl_id (w : World) : set_contentEl (contentEl w) w = w.
Proof. by destruct w. Qed.

Lemma category_of_name (c : Category) : category_of (category_name c) = Some c.
Proof. by destruct c. Qed.

Lemma category_of_Some (v : value) (c : Category) :
  category_of v = Some c → v = category_name c.
Proof.
  unfold category_of, is_string. destruct v as [| | | | t | |]; try done.
  repeat case_bool_decide; intros [= <-]; by subst.
Qed.

Lemma show_section (key t : string) (chars : list text) (w : World) :
  (show ← gets (λ w, get (settings w) key) ;
   if truthy show then createCharacterSection t chars else ret tt) w
  = Ok tt (if truthy (get (settings w) key)
           then set_contentEl (contentEl w ++ [CharacterSection (lit t) chars]) w
           else w).
Proof.
  unfold mbind, M_bind, bind, gets. by destruct (truthy (get (settings w) key)).
Qed.

Lemma onOpen_loop (l : list value) (w : World) :
  for_of l (λ category,
    if is_string "Vowels" category then
      show ← gets (λ w, get (settings w) "showVowels") ;
      if truthy show then createCharacterSection "Vowels" ipaVowels else ret tt
    else if is_string "Consonants" category then
      show ← gets (λ w, get (settings w) "showConsonants") ;
      if truthy show then createCharacterSection "Consonants" ipaConsonants else ret tt
    else if is_string "Diacritics" category then
      show ← gets (λ w, get (settings w) "showDiacritics") ;
      if truthy show then createCharacterSection "Diacritics" diacritics else ret tt
    else if is_string "Suprasegmentals" category then
      show ← gets (λ w, get (settings w) "showSuprasegmentals") ;
      if truthy show then createCharacterSection "Suprasegmentals" suprasegmentals
      else ret tt
    else ret tt) w
  = Ok tt (set_contentEl (contentEl w ++ omap (section_of (settings w)) l) w).
Proof.
  revert w. induction l as [| x l IH]; intros w.
  - simpl. by rewrite app_nil_r, set_contentEl_id.
  - cbn [for_of]. unfold mbind at 1, M_bind at 1, bind at 1.
    cbn [omap list_omap]. unfold section_of at 1, category_of, visible.
    destruct (is_string "Vowels" x); [|
      destruct (is_string "Consonants" x); [|
        destruct (is_string "Diacritics" x); [|
          destruct (is_string "Suprasegmentals" x)]]];
      rewrite ?show_section; cbn [mbind option_bind show_key ret];
      try (match goal with |- context [truthy ?v] => destruct (truthy v) end);
      rewrite IH; cbn [settings contentEl set_contentEl];
      by rewrite <- ?app_assoc.
Qed.

Lemma onOpen_spec (w : World) :
  onOpen w
  = match iterate (get (settings w) "categoryOrder") with
    | inr _ => Ok tt (set_contentEl (rendered (settings w)) w)
    | inl e => Throw e (set_contentEl (rendered (settings w)) w)
    end.
Proof.
  unfold onOpen, rendered. unfold mbind at 1 2 3 4, M_bind, bind at 1 2 3 4.
  cbn [modify gets set_contentEl settings contentEl app].
  destruct (iterate (get (settings w) "categoryOrder")) as [e | l]; [done |].
  cbn [lift ret]. by rewrite onOpen_loop.
Qed.

Lemma run_onOpen (w : World) : run onOpen w = set_contentEl (rendered (settings w)) w.
Proof.
  unfold run. rewrite onOpen_spec.
  by destruct (iterate (get (settings w) "categoryOrder")).
Qed.

Lemma getRenderPlan_rendered (w : World) :
  getRenderPlan w = section_titles (rendered (settings w)).
Proof. unfold getRenderPlan. by rewrite run_onOpen. Qed.

Lemma section_titles_sections (s : gmap string value) (l : list value) :
  section_titles (omap (section_of s) l)
  = title <$> filter (λ c, visible s c) (omap category_of l).
Proof.
  unfold section_titles. induction l as [| x l IH]; [done |].
  cbn [omap list_omap]. unfold section_of at 1.
  destruct (category_of x) as [c |]; cbn [mbind option_bind]; [| done].
  rewrite filter_cons. destruct (visible s c).
  - rewrite decide_True by done. cbn [omap list_omap fmap list_fmap]. by rewrite <- IH.
  - by rewrite decide_False by (by intros []).
Qed.

(** The plan of an array order: its entries that name a category whose
    flag is on, in the order of the array. *)
Lemma getRenderPlan_array (w : World) (order : list value) :
  get (settings w) "categoryOrder" = VArr order →
  getRenderPlan w
  = title <$> filter (λ c, visible (settings w) c) (omap category_of order).
Proof.
  intros Hget. rewrite getRenderPlan_rendered. unfold rendered. rewrite Hget.
  cbn [iterate section_titles omap list_omap]. apply section_titles_sections.
Qed.

Lemma omap_category_of_names (cs : list Category) :
  omap category_of (category_name <$> cs) = cs.
Proof.
  induction cs as [| c cs IH]; [done |].
  cbn [fmap list_fmap omap list_omap]. rewrite category_of_name. by f_equal.
Qed.

(** ** Toggles *)

Lemma setVisibility_onChange (c : Category) (b : bool) :
  setVisibility c b = onChange (show_key c) b.
Proof. by destruct c. Qed.

(** The state a toggle handler leaves. *)
Lemma run_onChange (key : string) (b : bool) (w : World) :
  run (onChange key b) w
  = let s' := <[key := VBool b]> (settings w) in
    if storage_ok w then
      let w1 := set_trace (trace w ++ [CSaveData s'; CRefreshView])
                  (set_data_json (VObj s') (set_settings s' w)) in
      if ipaView w then set_contentEl (rendered s') w1 else w1
    else set_trace (trace w ++ [CSaveData s']) (set_settings s' w).
Proof.
  unfold run, onChange, saveSettings, saveData, refreshView, call, modify, gets,
    throw, detached, mbind, M_bind, bind.
  cbn [storage_ok set_trace set_settings settings trace].
  destruct (storage_ok w); [| done].
  cbn [ipaView set_trace set_data_json set_settings settings trace].
  rewrite <- app_assoc. destruct (ipaView w); [| done].
  rewrite onOpen_spec. cbn [settings set_trace set_data_json set_settings].
  by destruct (iterate _).
Qed.

Lemma settings_setVisibility (c : Category) (b : bool) (w : World) :
  settings (run (setVisibility c b) w) = <[show_key c := VBool b]> (settings w).
Proof.
  rewrite setVisibility_onChange, run_onChange. cbn zeta.
  by destruct (storage_ok w), (ipaView w).
Qed.

Lemma show_key_inj (c c' : Category) : show_key c = show_key c' → c = c'.
Proof. by destruct c, c'. Qed.

Lemma visible_insert (s : gmap string value) (c c' : Category) (b : bool) :
  visible (<[show_key c := VBool b]> s) c' = if decide (c' = c) then b else visible s c'.
Proof.
  unfold visible, get. destruct (decide (c' = c)) as [-> | Hne].
  - by rewrite lookup_insert_eq.
  - rewrite lookup_insert_ne; [done |]. intros H. by apply Hne, show_key_inj.
Qed.

Lemma order_insert_show (s : gmap string value) (c : Category) (v : value) :
  get (<[show_key c := v]> s) "categoryOrder" = get s "categoryOrder".
Proof. unfold get. rewrite lookup_insert_ne; [done |]. by destruct c. Qed.

Lemma elem_of_all_categories (c : Category) : c ∈ all_categories.
Proof. unfold all_categories. destruct c; set_solver. Qed.

Lemma getRenderPlan_listed (w : World) :
  getRenderPlan w
  = title <$> filter (λ c, visible (settings w) c) (listed (settings w)).
Proof.
  rewrite getRenderPlan_rendered. unfold rendered, listed.
  destruct (iterate (get (settings w) "categoryOrder")) as [e | l]; [done |].
  cbn [section_titles omap list_omap]. apply section_titles_sections.
Qed.

Lemma listed_insert_show (s : gmap string value) (c : Category) (v : value) :
  listed (<[show_key c := v]> s) = listed s.
Proof. unfold listed. by rewrite order_insert_show. Qed.

(** C7, as the render has it.  For every configuration the render plan is
    the sequence of the entries of the order that name a category whose flag
    is on: a category is in it exactly when its flag is on and the order
    lists it; a category switched off is absent from it, and switching it on
    again puts it back wherever the order lists it.  When the order is a
    permutation of the four names, the plan holds exactly the categories
    whose flag is on. *)
Theorem render_plan_visible_in_order (w : World) :
  let cs := listed (settings w) in
  getRenderPlan w = title <$> filter (λ c, visible (settings w) c) cs ∧
  (∀ c, title c ∈ getRenderPlan w ↔ visible (settings w) c = true ∧ c ∈ cs) ∧
  (∀ c, visible (settings w) c = false → title c ∉ getRenderPlan w) ∧
  (∀ c,
     let off := run (setVisibility c false) w in
     let on := run (setVisibility c true) off in
     (title c ∉ getRenderPlan off) ∧
     getRenderPlan off
     = title <$> filter (λ c', c' ≠ c ∧ visible (settings w) c') cs ∧
     getRenderPlan on
     = title <$> filter (λ c', c' = c ∨ visible (settings w) c') cs) ∧
  (∀ order, get (settings w) "categoryOrder" = VArr order →
            cs = omap category_of order) ∧
  (∀ cs', get (settings w) "categoryOrder" = VArr (category_name <$> cs') →
          cs' ≡ₚ all_categories →
          ∀ c, title c ∈ getRenderPlan w ↔ visible (settings w) c = true).
Proof.
  intros cs.
  assert (∀ c, title c ∈ getRenderPlan w ↔ visible (settings w) c = true ∧ c ∈ cs)
    as Hiff.
  { intros c. rewrite getRenderPlan_listed, (list_elem_of_fmap_inj title).
    rewrite list_elem_of_filter. fold cs.
    destruct (visible (settings w) c); naive_solver. }
  split; [apply getRenderPlan_listed |]. split; [done |]. split; [| split; [| split]].
  - intros c Hoff Hin. apply Hiff in Hin as [Hon _]. congruence.
  - intros c off on.
    rewrite (getRenderPlan_listed off), (getRenderPlan_listed on).
    unfold on. rewrite settings_setVisibility, listed_insert_show.
    unfold off. rewrite settings_setVisibility, listed_insert_show. fold cs.
    split; [| split].
    + rewrite (list_elem_of_fmap_inj title), list_elem_of_filter, visible_insert.
      rewrite decide_True by done. by intros [[] _].
    + f_equal. apply list_filter_iff. intros c'. rewrite visible_insert.
      destruct (decide (c' = c)); [| naive_solver].
      split; [by intros [] | naive_solver].
    + f_equal. apply list_filter_iff. intros c'. rewrite !visible_insert.
      destruct (decide (c' = c)); naive_solver.
  - intros order Hget. unfold cs, listed. by rewrite Hget.
  - intros cs' Hget Hperm c. rewrite Hiff.
    assert (cs = cs') as ->.
    { unfold cs, listed. rewrite Hget. cbn [iterate]. apply omap_category_of_names. }
    rewrite Hperm. pose proof (elem_of_all_categories c). naive_solver.
Qed.

Lemma render_plan_visible_in_order_witness :
  getRenderPlan (run (setVisibility Consonants false) sample_world)
  = [title Vowels; title Diacritics; title Suprasegmentals].
Proof.
  pose proof (render_plan_visible_in_order sample_world) as (_ & _ & _ & H & _).
  destruct (H Consonants) as (_ & -> & _). reflexivity.
Defined.

(** C7, counterexample to "exactly the categories whose flag is on": with
    the stored order [["Vowels"]], a load leaves the four flags on and a
    render shows the vowels alone. *)
Lemma render_plan_counterexample :
  let w := run loadSettings
             (set_data_json (VObj {[ "categoryOrder"%string := VArr [str "Vowels"] ]})
                sample_world) in
  visible (settings w) Consonants = true ∧
  (title Consonants ∉ getRenderPlan w) ∧
  getRenderPlan w = [title Vowels].
Proof.
  cbn zeta. split; [reflexivity |].
  assert (getRenderPlan
            (run loadSettings
               (set_data_json
                  (VObj {[ "categoryOrder"%string := VArr [str "Vowels"] ]})
                  sample_world))
          = [title Vowels]) as -> by reflexivity.
  split; [| done]. intros Hin. apply list_elem_of_singleton in Hin. discriminate.
Qed.

(** C8.  Switching a category to [b] twice leaves the state that switching
    it once leaves, up to the calls made: same settings, same stored data,
    same panel, hence the same render plan. *)
Theorem setVisibility_idempotent (w : World) (c : Category) (b : bool) :
  let once := run (setVisibility c b) w in
  let twice := run (setVisibility c b) once in
  set_trace [] twice = set_trace [] once ∧
  settings twice = settings once ∧
  getRenderPlan twice = getRenderPlan once.
Proof.
  intros once twice.
  assert (settings twice = settings once) as Hs.
  { unfold twice, once. rewrite !settings_setVisibility. apply insert_insert_eq. }
  split; [| split; [done |]].
  - unfold twice, once. rewrite setVisibility_onChange, !run_onChange. cbn zeta.
    destruct (storage_ok w) eqn:Hok, (ipaView w) eqn:Hv;
      cbn [storage_ok ipaView set_contentEl set_trace set_data_json set_settings
           settings trace];
      rewrite ?Hok, ?Hv;
      cbn [storage_ok ipaView set_contentEl set_trace set_data_json set_settings
           settings trace editors focused data_json lastActiveEditor lastActiveView
           contentEl];
      by rewrite insert_insert_eq.
  - by rewrite !getRenderPlan_rendered, Hs.
Qed.

(** C10.  An entry of the order that is not one of the four names gives no
    section and no error: rendering returns, every title of the plan is the
    name of a category, and the plan is the one of the order without that
    entry. *)
Theorem foreign_names_skipped (w : World) (order : list value) :
  get (settings w) "categoryOrder" = VArr order →
  onOpen w = Ok tt (set_contentEl (rendered (settings w)) w) ∧
  (∀ t, t ∈ getRenderPlan w → ∃ c, t = title c ∧ category_name c ∈ order) ∧
  ∀ pre x post,
    order = pre ++ x :: post → category_of x = None →
    getRenderPlan w
    = getRenderPlan (set_settings (<["categoryOrder" := VArr (pre ++ post)]> (settings w)) w).
Proof.
  intros Hget. split; [| split].
  - rewrite onOpen_spec, Hget. done.
  - intros t. rewrite (getRenderPlan_array _ _ Hget), list_elem_of_fmap.
    intros (c & -> & Hc). exists c. split; [done |].
    apply list_elem_of_filter in Hc as [_ Hc].
    apply list_elem_of_omap in Hc as (v & Hv & Hcat).
    by rewrite <- (category_of_Some _ _ Hcat).
  - intros pre x post -> Hx.
    rewrite (getRenderPlan_array _ _ Hget).
    rewrite (getRenderPlan_array _ (pre ++ post)).
    + cbn [settings set_settings]. rewrite !omap_app. cbn [omap list_omap].
      rewrite Hx. f_equal. apply list_filter_iff. intros c.
      unfold visible, get. rewrite lookup_insert_ne; [done |]. by destruct c.
    + cbn [settings set_settings]. unfold get. by rewrite lookup_insert_eq.
Qed.

Lemma foreign_names_skipped_witness :
  getRenderPlan
    (set_settings (<["categoryOrder" := VArr [str "Tones"; str "Vowels"; VNull]]>
                     DEFAULT_SETTINGS) sample_world)
  = [title Vowels].
Proof.
  pose proof (foreign_names_skipped
    (set_settings (<["categoryOrder" := VArr [str "Tones"; str "Vowels"; VNull]]>
                     DEFAULT_SETTINGS) sample_world)
    [str "Tones"; str "Vowels"; VNull] eq_refl) as (_ & _ & H).
  rewrite (H [] (str "Tones") [str "Vowels"; VNull] eq_refl eq_refl).
  reflexivity.
Defined.

(** ** Dropping an entry on itself *)

(** Moving an entry to another index saves and asks for a new render. *)
Lemma reorder_moves_calls (w : World) (order : list value) (x : value) (i j : nat) :
  get (settings w) "categoryOrder" = VArr order →
  order !! i = Some x → (j < length order)%nat → i ≠ j →
  storage_ok w = true →
  trace (run (reorder i j) w)
  = trace w ++ [CSaveData (<["categoryOrder" := VArr (moved_to order i j x)]> (settings w));
                CRefreshView; CDisplay].
Proof.
  intros Hget Hi Hj Hne Hok. unfold run.
  rewrite (reorder_moves _ _ _ _ _ Hget Hi Hj Hne).
  unfold commit_order, saveSettings, saveData, refreshView, display, call, modify,
    gets, throw, detached, mbind, M_bind, bind.
  cbn [storage_ok set_trace set_settings settings trace]. rewrite Hok.
  cbn [ipaView set_trace set_data_json set_settings settings trace].
  destruct (ipaView w).
  - rewrite onOpen_spec. destruct (iterate _); cbn [world_of trace set_trace set_contentEl];
      rewrite <- !app_assoc; reflexivity.
  - cbn [ret world_of trace set_trace]. rewrite <- !app_assoc. reflexivity.
Qed.

(** C6, as the handler has it.  Dropping an entry on itself does nothing
    at all: the order stays, and nothing is saved and no render is asked
    for. *)
Theorem reorder_same_index_does_nothing (w : World) (i : nat) :
  let w' := run (reorder i i) w in
  reorder i i w = Ok tt w ∧
  order_of w' = order_of w ∧
  trace w' = trace w ∧
  data_json w' = data_json w ∧
  contentEl w' = contentEl w.
Proof.
  intros w'. unfold w', run. by rewrite reorder_same_index.
Qed.

(** C6, counterexample to "still persists and re-renders": after
    Diacritics is dropped on itself, with nothing stored yet and the panel
    not rendered yet, no save and no render request were made, the store is
    still empty and the panel still blank. *)
Lemma reorder_same_index_counterexample :
  let w' := run (reorder 2 2) sample_world in
  order_of w' = order_of sample_world ∧
  (∀ data, CSaveData data ∉ trace w') ∧
  (CRefreshView ∉ trace w') ∧
  data_json w' = VNull ∧
  contentEl w' = [].
Proof.
  cbn zeta. unfold run. rewrite reorder_same_index. cbn [world_of].
  repeat split; try done.
  - intros data H. by apply elem_of_nil in H.
  - intros H. by apply elem_of_nil in H.
Qed.

(** ** The tracker *)

Lemma run_events_snoc (evs : list Event) (ev : Event) (w : World) :
  run_events (evs ++ [ev]) w = run (handle ev) (run_events evs w).
Proof. unfold run_events. by rewrite foldl_snoc. Qed.

Lemma insertCharacterAtCursor_preserves {B} (f : World → B) (char : text) :
  (∀ t w, f (set_trace t w) = f w) → (∀ x w, f (set_editors x w) = f w) →
  (∀ x w, f (set_focused x w) = f w) →
  preserves f (insertCharacterAtCursor char).
Proof.
  intros Ht He Hf.
  unfold insertCharacterAtCursor, getCursor, replaceRange, setCursor, focus, Notice.
  repeat first
    [ apply preserves_call; by auto
    | apply preserves_modify; intros ?; by auto
    | frame_step ].
Qed.

Lemma drop_on_preserves {B} (f : World → B) (data : text) (i : nat) :
  (∀ t w, f (set_trace t w) = f w) → (∀ x w, f (set_data_json x w) = f w) →
  (∀ x w, f (set_contentEl x w) = f w) → (∀ x w, f (set_settings x w) = f w) →
  preserves f (drop_on data i).
Proof.
  intros Ht Hd Hc Hs. unfold drop_on.
  repeat first
    [ by apply saveSettings_preserves
    | by apply refreshView_preserves
    | by apply display_preserves
    | apply preserves_modify; intros ?; by auto
    | frame_step ].
Qed.

Lemma onChange_preserves {B} (f : World → B) (key : string) (b : bool) :
  (∀ t w, f (set_trace t w) = f w) → (∀ x w, f (set_data_json x w) = f w) →
  (∀ x w, f (set_contentEl x w) = f w) → (∀ x w, f (set_settings x w) = f w) →
  preserves f (onChange key b).
Proof.
  intros Ht Hd Hc Hs. unfold onChange.
  repeat first
    [ by apply saveSettings_preserves
    | by apply refreshView_preserves
    | apply preserves_modify; intros ?; by auto
    | frame_step ].
Qed.

(** Only a focus change that reports an editor touches the two fields. *)
Lemma handle_preserves_tracker {B} (f : World → B) (ev : Event) :
  (∀ t w, f (set_trace t w) = f w) → (∀ x w, f (set_data_json x w) = f w) →
  (∀ x w, f (set_contentEl x w) = f w) → (∀ x w, f (set_settings x w) = f w) →
  (∀ x w, f (set_editors x w) = f w) → (∀ x w, f (set_focused x w) = f w) →
  (∀ v, ev ≠ EActiveLeafChange (Some v)) →
  preserves f (handle ev).
Proof.
  intros Ht Hd Hc Hs He Hf Hev. destruct ev as [[v |] | char | | | c b | data i]; cbn [handle].
  - by destruct (Hev v).
  - done.
  - by apply insertCharacterAtCursor_preserves.
  - by apply onOpen_preserves.
  - by apply preserves_modify.
  - rewrite setVisibility_onChange. by apply onChange_preserves.
  - by apply drop_on_preserves.
Qed.

Lemma last_editor_view_snoc (evs : list Event) (ev : Event) :
  last_editor_view (evs ++ [ev])
  = match ev with
    | EActiveLeafChange (Some v) => Some v
    | _ => last_editor_view evs
    end.
Proof.
  unfold last_editor_view. rewrite omap_app. cbn [omap list_omap].
  destruct ev as [[v |] | | | | |]; cbn [app]; rewrite ?app_nil_r; try done.
  by rewrite last_snoc.
Qed.

(** The two fields after a run of events. *)
Lemma tracker_after_events (evs : list Event) (w : World) :
  lastActiveView (run_events evs w)
  = from_option Some (lastActiveView w) (last_editor_view evs) ∧
  lastActiveEditor (run_events evs w)
  = from_option (λ v, Some (editor v)) (lastActiveEditor w) (last_editor_view evs).
Proof.
  induction evs as [| ev evs IH] using rev_ind; [done |].
  rewrite run_events_snoc, last_editor_view_snoc.
  destruct ev as [[v |] | char | | | c b | data i]; [done | ..];
    unfold run;
    rewrite (handle_preserves_tracker lastActiveView) by done;
    by rewrite (handle_preserves_tracker lastActiveEditor) by done.
Qed.

Lemma last_editor_view_then_none (evs : list Event) (v : MarkdownView) (n : nat) :
  last_editor_view (evs ++ EActiveLeafChange (Some v)
                          :: replicate n (EActiveLeafChange None))
  = Some v.
Proof.
  unfold last_editor_view. rewrite omap_app. cbn [omap list_omap].
  replace (omap _ (replicate n (EActiveLeafChange None))) with (@nil MarkdownView)
    by (by induction n).
  apply last_snoc.
Qed.

(** C4.  After any run of events, the stored target is the view, and the
    editor of the view, that the last focus change with an editor reported
    (the target before the run if there was none); a focus change without an
    editor changes nothing, however many of them follow. *)
Theorem last_reported_editor_is_target (w : World) (evs : list Event) :
  let w' := run_events evs w in
  lastActiveView w' = from_option Some (lastActiveView w) (last_editor_view evs) ∧
  lastActiveEditor w'
  = from_option (λ v, Some (editor v)) (lastActiveEditor w) (last_editor_view evs) ∧
  (∀ w0, on_active_leaf_change None w0 = Ok tt w0) ∧
  ∀ v n,
    let w'' := run_events (evs ++ EActiveLeafChange (Some v)
                                 :: replicate n (EActiveLeafChange None)) w in
    lastActiveView w'' = Some v ∧ lastActiveEditor w'' = Some (editor v).
Proof.
  intros w'. destruct (tracker_after_events evs w) as [Hv He].
  repeat split; try done;
    destruct (tracker_after_events
                (evs ++ EActiveLeafChange (Some v)
                        :: replicate n (EActiveLeafChange None)) w) as [Hv' He'];
    rewrite last_editor_view_then_none in Hv', He'; done.
Qed.

(** C9.  The two fields of the tracker go together: a handler leaves both
    as they were or sets both from one view, the constructor sets both to
    null, and so after any run of events on a new view both are null or both
    are set, the editor being the one of the stored view. *)
Theorem tracker_fields_paired :
  (∀ ev w,
     let w' := run (handle ev) w in
     (lastActiveEditor w' = lastActiveEditor w ∧ lastActiveView w' = lastActiveView w)
     ∨ (∃ v, lastActiveView w' = Some v ∧ lastActiveEditor w' = Some (editor v))) ∧
  (∀ w,
     let w' := run create_view w in
     lastActiveEditor w' = None ∧ lastActiveView w' = None) ∧
  (∀ evs w,
     let w' := run_events evs (run create_view w) in
     (lastActiveEditor w' = None ∧ lastActiveView w' = None)
     ∨ (∃ v, lastActiveView w' = Some v ∧ lastActiveEditor w' = Some (editor v))).
Proof.
  split; [| split].
  - intros ev w w'.
    destruct (tracker_after_events [ev] w) as [Hv He].
    change (run_events [ev] w) with w' in Hv, He.
    destruct (last_editor_view [ev]) as [v |]; cbn [from_option] in Hv, He; eauto.
  - done.
  - intros evs w w'.
    destruct (tracker_after_events evs (run create_view w)) as [Hv He].
    fold w' in Hv, He.
    destruct (last_editor_view evs) as [v |]; cbn [from_option] in Hv, He; eauto.
Qed.

(** ** Insertion *)

Lemma insertCharacterAtCursor_no_target (char : text) (w : World) :
  lastActiveEditor w = None ∨ lastActiveView w = None →
  insertCharacterAtCursor char w
  = Ok tt (set_trace (trace w ++ [CNotice no_editor_message]) w).
Proof.
  intros H. unfold insertCharacterAtCursor, mbind, M_bind, bind, gets.
  by destruct H as [-> | ->]; [| destruct (lastActiveEditor w)].
Qed.

(** C3.  On a view that no focus change with an editor has reached,
    an insertion returns without throwing and its only effect is one notice:
    no editor is touched and no other call is made. *)
Theorem insert_without_target (w : World) (evs : list Event) (char : text) :
  last_editor_view evs = None →
  let w1 := run_events evs (run create_view w) in
  let r := insertCharacterAtCursor char w1 in
  r = Ok tt (set_trace (trace w1 ++ [CNotice no_editor_message]) w1) ∧
  returns r = true ∧
  trace (world_of r) = trace w1 ++ [CNotice no_editor_message] ∧
  editors (world_of r) = editors w1.
Proof.
  intros Hnone w1 r.
  assert (r = Ok tt (set_trace (trace w1 ++ [CNotice no_editor_message]) w1)) as ->.
  { unfold r. apply insertCharacterAtCursor_no_target. left.
    destruct (tracker_after_events evs (run create_view w)) as [_ He].
    fold w1 in He. by rewrite He, Hnone. }
  done.
Qed.

Lemma insert_without_target_witness :
  trace (run (insertCharacterAtCursor [0x259%N])
           (run_events [EOpen; EActiveLeafChange None] (run create_view sample_world)))
  = [CNotice no_editor_message].
Proof.
  pose proof (insert_without_target sample_world [EOpen; EActiveLeafChange None]
                [0x259%N] eq_refl) as (_ & _ & H & _).
  exact H.
Defined.

Lemma split_lines_no_line_break (t : text) : no_line_break t → split_lines t = [t].
Proof.
  induction 1 as [| u t [H10 H13] _ IH]; [done |].
  cbn [split_lines]. rewrite (proj2 (N.eqb_neq u 13)), (proj2 (N.eqb_neq u 10)) by done.
  by rewrite IH.
Qed.

Lemma clip_inside (d : list text) (l : text) (L C : nat) :
  d !! L = Some l → (C ≤ length l)%nat →
  clip d {| line := L; ch := C |} = {| line := L; ch := C |}.
Proof.
  intros Hl HC. unfold clip. cbn [line ch]. rewrite Hl. f_equal. lia.
Qed.

(** Inserting text without line break at a position of the document changes
    the one line. *)
Lemma insert_text_inside (d : list text) (l t : text) (L C : nat) :
  d !! L = Some l → (C ≤ length l)%nat → no_line_break t →
  insert_text d {| line := L; ch := C |} t = <[L := take C l ++ t ++ drop C l]> d.
Proof.
  intros Hl HC Ht. unfold insert_text.
  rewrite (clip_inside _ _ _ _ Hl HC). cbn [line ch]. rewrite Hl. cbn [default id].
  rewrite (split_lines_no_line_break _ Ht). cbn [wrap_lines app].
  symmetry. apply insert_take_drop. by eapply lookup_lt_Some.
Qed.

(** The state an insertion leaves when a target is stored. *)
Lemma insertCharacterAtCursor_target (char : text) (w : World) (e : nat) (v : MarkdownView) :
  lastActiveEditor w = Some e → lastActiveView w = Some v →
  insertCharacterAtCursor char w
  = let ed := editors w !!! e in
    let c := cursor ed in
    let c' := {| line := line c; ch := ch c + length char |} in
    let d' := insert_text (doc ed) c char in
    Ok tt (set_focused (Some (editor v))
             (set_trace (trace w ++ [CReplaceRange e char c; CSetCursor e c';
                                     CFocus (editor v)])
                (set_editors (<[e := {| doc := d'; cursor := clip d' c' |}]> (editors w))
                   w))).
Proof.
  intros He Hv.
  unfold insertCharacterAtCursor, getCursor, replaceRange, setCursor, focus, call,
    modify, gets, mbind, M_bind, bind.
  rewrite He, Hv.
  cbn [editors trace set_trace set_editors set_focused].
  rewrite lookup_total_insert_eq, insert_insert_eq. cbn [doc cursor].
  by rewrite <- !app_assoc.
Qed.

(** C2.  With a target stored whose cursor is at line [L], column [C] of
    its document, inserting a symbol (a text without line break) puts the
    symbol between the first [C] characters of line [L] and the rest of
    that line, changes no other line and no other editor, and leaves the
    cursor at line [L], column [C + length char]. *)
Theorem insert_at_cursor
    (w : World) (e : nat) (v : MarkdownView) (d : list text) (l char : text)
    (L C : nat) :
  lastActiveEditor w = Some e → lastActiveView w = Some v →
  editors w !!! e = {| doc := d; cursor := {| line := L; ch := C |} |} →
  d !! L = Some l → (C ≤ length l)%nat →
  no_line_break char →
  let r := insertCharacterAtCursor char w in
  returns r = true ∧
  editors (world_of r) !!! e
  = {| doc := <[L := take C l ++ char ++ drop C l]> d;
       cursor := {| line := L; ch := C + length char |} |} ∧
  (∀ e', e' ≠ e → editors (world_of r) !! e' = editors w !! e') ∧
  focused (world_of r) = Some (editor v) ∧
  trace (world_of r)
  = trace w ++ [CReplaceRange e char {| line := L; ch := C |};
                CSetCursor e {| line := L; ch := C + length char |};
                CFocus (editor v)].
Proof.
  intros He Hv Hed Hl HC Hchar r. unfold r.
  rewrite (insertCharacterAtCursor_target _ _ _ _ He Hv). rewrite Hed.
  cbn [doc cursor line ch returns world_of editors focused trace set_focused
       set_trace set_editors].
  rewrite (insert_text_inside _ _ _ _ _ Hl HC Hchar).
  repeat split; try done.
  - rewrite lookup_total_insert_eq. f_equal.
    apply clip_inside with (l := take C l ++ char ++ drop C l).
    + apply list_lookup_insert_eq. by eapply lookup_lt_Some.
    + rewrite !length_app, length_take. lia.
  - intros e' Hne. by rewrite lookup_insert_ne.
Qed.

Lemma insert_at_cursor_witness :
  editors (run (insertCharacterAtCursor [0x259%N])
             (run_events [EActiveLeafChange (Some sample_view)] sample_world))
    !!! 1%nat
  = {| doc := [lit "pat"; [107; 0x259; 116]%N]; cursor := {| line := 1; ch := 2 |} |}.
Proof.
  pose proof (insert_at_cursor
    (run_events [EActiveLeafChange (Some sample_view)] sample_world)
    1 sample_view [lit "pat"; lit "kt"] (lit "kt") [0x259%N] 1 1
    eq_refl eq_refl eq_refl eq_refl) as H.
  destruct H as (_ & H & _).
  - simpl. lia.
  - repeat constructor; discriminate.
  - exact H.
Defined.

(** Every button of the palette inserts one code unit that is no line
    break. *)
Lemma palette_symbols (c : Category) (char : text) :
  char ∈ characters c → no_line_break char ∧ length char = 1%nat.
Proof.
  revert char. apply Forall_forall.
  destruct c; cbn [characters]; unfold no_line_break;
    repeat (apply Forall_cons; split; [by split; [repeat constructor |] |]);
    apply Forall_nil_2.
Qed.

(** ** Loading *)

Lemma Object_assign_defaults (data : value) :
  Object_assign ∅ [VObj DEFAULT_SETTINGS; data]
  = delete "__proto__" (own_props data) ∪ DEFAULT_SETTINGS.
Proof.
  unfold Object_assign. cbn [foldl].
  change (assign_from (∅, ObjectPrototype) (VObj DEFAULT_SETTINGS))
    with (DEFAULT_SETTINGS ∪ (∅ : gmap string value), ObjectPrototype).
  rewrite (right_id_L ∅ (∪)). unfold assign_from.
  destruct (own_props data !! "__proto__") as [v |] eqn:Hp.
  - done.
  - cbn [fst]. by rewrite delete_id.
Qed.

Lemma loadSettings_spec (w : World) :
  loadSettings w
  = Ok tt (set_settings
             (delete "__proto__" (own_props (data_json w)) ∪ DEFAULT_SETTINGS) w).
Proof.
  unfold loadSettings, loadData, mbind, M_bind, bind, gets, modify.
  by rewrite Object_assign_defaults.
Qed.

(** C5.  Loading merges the stored object over the defaults field by
    field: each of the five fields of the configuration, and every other
    field that the stored object has, keeps the stored value if there is one
    and has its default otherwise (the one key that never becomes a field is
    ["__proto__"], which [Object.assign] hands to the prototype setter).
    With only [showVowels: false] stored, the vowels are off, the three other
    flags are on and the order is the default one; with nothing stored the
    settings are the defaults. *)
Theorem load_merges_over_defaults
    (w : World) (data : gmap string value) (k : string) :
  let loaded := settings (run loadSettings (set_data_json (VObj data) w)) in
  let partial :=
    settings (run loadSettings
                (set_data_json (VObj {[ "showVowels"%string := VBool false ]}) w)) in
  loaded !! k
  = (if decide (k = "__proto__"%string) then None
     else from_option Some (DEFAULT_SETTINGS !! k) (data !! k)) ∧
  (∀ c, get loaded (show_key c) = default (VBool true) (data !! show_key c)) ∧
  get loaded "categoryOrder"
  = default (VArr (category_name <$> all_categories)) (data !! "categoryOrder") ∧
  get partial "showVowels" = VBool false ∧
  get partial "showConsonants" = VBool true ∧
  get partial "showDiacritics" = VBool true ∧
  get partial "showSuprasegmentals" = VBool true ∧
  get partial "categoryOrder" = VArr (category_name <$> all_categories) ∧
  settings (run loadSettings (set_data_json VNull w)) = DEFAULT_SETTINGS.
Proof.
  intros loaded partial.
  assert (∀ k', k' ≠ "__proto__"%string →
            loaded !! k' = from_option Some (DEFAULT_SETTINGS !! k') (data !! k'))
    as Hmerge.
  { intros k' Hk'. unfold loaded, run. rewrite loadSettings_spec.
    cbn [world_of settings set_settings data_json set_data_json own_props].
    rewrite lookup_union, lookup_delete_ne by done.
    destruct (data !! k'), (DEFAULT_SETTINGS !! k'); done. }
  split; [| split; [| split]].
  - destruct (decide (k = "__proto__"%string)) as [-> | Hk]; [| by apply Hmerge].
    unfold loaded, run. rewrite loadSettings_spec.
    cbn [world_of settings set_settings data_json set_data_json own_props].
    rewrite lookup_union, lookup_delete_eq. reflexivity.
  - intros c. unfold get. rewrite Hmerge by (by destruct c).
    destruct (data !! show_key c); [done |]. by destruct c.
  - unfold get. rewrite Hmerge by done. by destruct (data !! "categoryOrder").
  - unfold partial, run. rewrite !loadSettings_spec.
    cbn [world_of settings set_settings data_json set_data_json own_props].
    repeat split; reflexivity.
Qed.

(** * Further properties of the handlers *)

(** ** Drops in general *)

Lemma splice_shape {A} (a : list A) (start : option Z) (dc : Z) (items : list A) :
  ∃ i n : nat,
    (i + n ≤ length a)%nat ∧ Z.of_nat n ≤ Z.max dc 0 ∧
    splice a start dc items = (take i a ++ items ++ drop (i + n) a, take n (drop i a)).
Proof.
  unfold splice.
  set (len := Z.of_nat (length a)). set (rel := to_integer start).
  set (actualStart := if rel <? 0 then Z.max (len + rel) 0 else Z.min rel len).
  assert (0 ≤ actualStart ≤ len) as Hs.
  { unfold actualStart. destruct (Z.ltb_spec rel 0); lia. }
  exists (Z.to_nat actualStart), (Z.to_nat (Z.min (Z.max dc 0) (len - actualStart))).
  repeat split; lia.
Qed.

Lemma drop_on_array (w : World) (order : list value) (data : text) (i : nat) :
  get (settings w) "categoryOrder" = VArr order →
  drop_on data i w
  = if bool_decide (parseInt data ≠ Some (Z.of_nat i))
    then commit_order (dropped_order order (parseInt data) i) w
    else Ok tt w.
Proof.
  intros Hget. unfold drop_on, dropped_order. case_bool_decide; [| done].
  unfold mbind at 1 2, M_bind at 1 2, bind at 1 2, gets. rewrite Hget.
  cbn [iterate lift ret].
  destruct (splice order (parseInt data) 1 []) as [o removed].
  by destruct (splice o (Some (Z.of_nat i)) 0 [default VUndefined (head removed)]).
Qed.

Lemma dropped_order_Permutation (order : list value) (fromIndex : option Z) (i : nat) :
  dropped_order order fromIndex i ≡ₚ order
  ∨ dropped_order order fromIndex i ≡ₚ VUndefined :: order.
Proof.
  unfold dropped_order.
  destruct (splice_shape order fromIndex 1 []) as (k & n & Hkn & Hn & ->).
  set (o := take k order ++ [] ++ drop (k + n) order).
  set (moved := default VUndefined (head (take n (drop k order)))).
  destruct (splice_shape o (Some (Z.of_nat i)) 0 [moved]) as (k' & n' & Hkn' & Hn' & ->).
  assert (n' = 0)%nat as -> by lia. cbn [fst]. rewrite Nat.add_0_r.
  assert (take k' o ++ [moved] ++ drop k' o ≡ₚ moved :: o) as ->.
  { cbn [app]. by rewrite <- Permutation_middle, take_drop. }
  unfold o, moved. cbn [app]. clear o moved Hkn' Hn'.
  assert (n = 0 ∨ n = 1)%nat as [-> | ->] by lia.
  - right. cbn [take head default id]. by rewrite Nat.add_0_r, take_drop.
  - left. destruct (lookup_lt_is_Some_2 order k) as [x Hx]; [lia |].
    rewrite (drop_S _ _ _ Hx). cbn [take head default id].
    rewrite Nat.add_1_r, <- delete_take_drop. symmetry. by apply delete_Permutation.
Qed.

Lemma settings_drop_on (w : World) (order : list value) (data : text) (i : nat) :
  get (settings w) "categoryOrder" = VArr order →
  get (settings (run (drop_on data i) w)) "categoryOrder"
  = VArr (if bool_decide (parseInt data ≠ Some (Z.of_nat i))
          then dropped_order order (parseInt data) i else order).
Proof.
  intros Hget. unfold run. rewrite (drop_on_array _ _ _ _ Hget).
  case_bool_decide; [| done].
  fold (run (commit_order (dropped_order order (parseInt data) i)) w).
  rewrite commit_order_settings. unfold get. by rewrite lookup_insert_eq.
Qed.

(** X1.  The drop handler reads back the index that [dragstart] put on the
    drag, for every entry, and two entries never carry the same data. *)
Theorem drag_data_round_trip (i j : nat) :
  parseInt (dragstart i) = Some (Z.of_nat i) ∧
  (dragstart i = dragstart j → i = j).
Proof.
  split; [apply parseInt_toString |].
  intros H. apply (f_equal parseInt) in H. unfold dragstart in H.
  rewrite !parseInt_toString in H. injection H. lia.
Qed.

(** X2.  Whatever the drag data and the entry dropped on, a drop on an
    array order loses no entry and repeats none: the new order is a
    permutation of the old one, or of the old one with one [undefined]
    added. *)
Theorem drop_keeps_entries (w : World) (order : list value) (data : text) (i : nat) :
  get (settings w) "categoryOrder" = VArr order →
  let w' := run (drop_on data i) w in
  get (settings w') "categoryOrder" = VArr (order_of w') ∧
  (order_of w' ≡ₚ order ∨ order_of w' ≡ₚ VUndefined :: order).
Proof.
  intros Hget w'. unfold order_of, w'. rewrite (settings_drop_on _ _ _ _ Hget).
  split; [done |]. case_bool_decide; [| by left].
  apply dropped_order_Permutation.
Qed.

Lemma drop_keeps_entries_witness :
  order_of (run (drop_on (lit "-1") 0) sample_world) ≡ₚ order_of sample_world
  ∨ order_of (run (drop_on (lit "-1") 0) sample_world)
    ≡ₚ VUndefined :: order_of sample_world.
Proof.
  apply (drop_keeps_entries sample_world (order_of sample_world) (lit "-1") 0).
  reflexivity.
Defined.

Lemma moved_to_back {A} (a : list A) (i j : nat) (x : A) :
  a !! i = Some x → (j < length a)%nat →
  moved_to (moved_to a i j x) j i x = a.
Proof.
  intros Hi Hj. pose proof (lookup_lt_Some _ _ _ Hi) as Hlt.
  unfold moved_to at 1. rewrite (moved_to_others a i j x Hi Hj).
  rewrite delete_take_drop.
  rewrite take_app_length', drop_app_length' by (rewrite length_take; lia).
  by apply take_drop_middle.
Qed.

Lemma moved_to_length {A} (a : list A) (i j : nat) (x : A) :
  a !! i = Some x → length (moved_to a i j x) = length a.
Proof.
  intros Hi. pose proof (lookup_lt_Some _ _ _ Hi).
  unfold moved_to. rewrite length_app. cbn [length].
  rewrite length_take, length_drop, length_delete by eauto. lia.
Qed.

(** X3.  Dragging an entry from [i] to [j] and then the entry at [j] back
    to [i] gives the order there was. *)
Theorem reorder_back_restores (w : World) (order : list value) (i j : nat) :
  get (settings w) "categoryOrder" = VArr order →
  (i < length order)%nat → (j < length order)%nat →
  get (settings (run (reorder j i) (run (reorder i j) w))) "categoryOrder"
  = VArr order.
Proof.
  intros Hget Hi Hj.
  destruct (lookup_lt_is_Some_2 order i Hi) as [x Hx].
  pose proof (reorder_order_of _ _ _ _ _ Hget Hx Hj) as H1.
  destruct (decide (i = j)) as [-> | Hne].
  - rewrite (reorder_order_of _ _ _ _ _ H1 Hx Hj). by rewrite decide_True.
  - rewrite (reorder_order_of _ _ x _ _ H1).
    + rewrite decide_False by done. by rewrite moved_to_back.
    + by apply moved_to_lookup.
    + by rewrite moved_to_length.
Qed.

Lemma reorder_back_restores_witness :
  get (settings (run (reorder 3 0) (run (reorder 0 3) sample_world))) "categoryOrder"
  = VArr (category_name <$> all_categories).
Proof.
  apply (reorder_back_restores sample_world (category_name <$> all_categories) 0 3);
    [reflexivity | simpl; lia | simpl; lia].
Defined.

(** The result of [commit_order], with the host accepting the write or
    not. *)
Lemma commit_order_spec (newOrder : list value) (w : World) :
  commit_order newOrder w
  = let s' := <["categoryOrder" := VArr newOrder]> (settings w) in
    if storage_ok w then
      let w1 := set_data_json (VObj s') (set_settings s' w) in
      Ok tt (set_trace (trace w ++ [CSaveData s'; CRefreshView; CDisplay])
               (if ipaView w then set_contentEl (rendered s') w1 else w1))
    else Throw StorageError (set_trace (trace w ++ [CSaveData s']) (set_settings s' w)).
Proof.
  unfold commit_order, saveSettings, saveData, refreshView, display, call, modify,
    gets, throw, detached, mbind, M_bind, bind.
  cbn [storage_ok set_trace set_settings settings trace].
  destruct (storage_ok w); [| done].
  cbn [ipaView set_trace set_data_json set_settings settings trace].
  destruct (ipaView w).
  - rewrite onOpen_spec. cbn [settings set_trace set_data_json set_settings].
    destruct (iterate _); cbn [trace set_trace set_contentEl];
      rewrite <- !app_assoc; reflexivity.
  - cbn [ret trace set_trace]. rewrite <- !app_assoc. reflexivity.
Qed.

(** The result of a toggle handler, with the host accepting the write or
    not. *)
Lemma onChange_spec (key : string) (b : bool) (w : World) :
  onChange key b w
  = let s' := <[key := VBool b]> (settings w) in
    if storage_ok w then
      let w1 := set_data_json (VObj s') (set_settings s' w) in
      Ok tt (set_trace (trace w ++ [CSaveData s'; CRefreshView])
               (if ipaView w then set_contentEl (rendered s') w1 else w1))
    else Throw StorageError (set_trace (trace w ++ [CSaveData s']) (set_settings s' w)).
Proof.
  unfold onChange, saveSettings, saveData, refreshView, call, modify, gets,
    throw, detached, mbind, M_bind, bind.
  cbn [storage_ok set_trace set_settings settings trace].
  destruct (storage_ok w); [| done].
  cbn [ipaView set_trace set_data_json set_settings settings trace].
  rewrite <- app_assoc. destruct (ipaView w); [| done].
  rewrite onOpen_spec. cbn [settings set_trace set_data_json set_settings].
  by destruct (iterate _).
Qed.

(** X4.  Drag data that is no number ([parseInt] gives [NaN]) acts as a
    drag of the first entry: that entry moves to the entry dropped on, and
    the handler saves even when this leaves the order as it was. *)
Theorem drop_not_a_number
    (w : World) (x : value) (rest : list value) (data : text) (i : nat) :
  get (settings w) "categoryOrder" = VArr (x :: rest) →
  parseInt data = None →
  (i ≤ length rest)%nat →
  let w' := run (drop_on data i) w in
  get (settings w') "categoryOrder" = VArr (take i rest ++ x :: drop i rest) ∧
  ∃ calls, trace w' = trace w ++ CSaveData (settings w') :: calls.
Proof.
  intros Hget Hnan Hi w'.
  assert (dropped_order (x :: rest) None i = take i rest ++ x :: drop i rest) as Hd.
  { unfold dropped_order.
    rewrite (splice_remove (x :: rest) 0 x eq_refl : splice (x :: rest) None 1 [] = _).
    cbn [head default id delete list_delete]. by rewrite splice_insert. }
  unfold w', run. rewrite (drop_on_array _ _ _ _ Hget), Hnan.
  rewrite bool_decide_eq_true_2 by done. rewrite Hd, commit_order_spec. cbn zeta.
  destruct (storage_ok w), (ipaView w);
    cbn [world_of settings trace set_trace set_contentEl set_data_json set_settings];
    (split; [unfold get; by rewrite lookup_insert_eq | eauto]).
Qed.

Lemma drop_not_a_number_witness :
  get (settings (run (drop_on (lit "Vowels") 2) sample_world)) "categoryOrder"
  = VArr [str "Consonants"; str "Diacritics"; str "Vowels"; str "Suprasegmentals"].
Proof.
  apply (drop_not_a_number sample_world (str "Vowels")
           [str "Consonants"; str "Diacritics"; str "Suprasegmentals"]
           (lit "Vowels") 2);
    [reflexivity | reflexivity | simpl; lia].
Defined.

(** X5.  Drag data that names an index past the end of the list moves no
    entry: [undefined] is put in the list at the entry dropped on, and the
    list is one longer. *)
Theorem drop_index_past_end
    (w : World) (order : list value) (data : text) (n : Z) (i : nat) :
  get (settings w) "categoryOrder" = VArr order →
  parseInt data = Some n → Z.of_nat (length order) ≤ n →
  (i < length order)%nat →
  let w' := run (drop_on data i) w in
  get (settings w') "categoryOrder"
  = VArr (take i order ++ VUndefined :: drop i order) ∧
  length (order_of w') = S (length order).
Proof.
  intros Hget Hn Hge Hi w'.
  assert (dropped_order order (Some n) i = take i order ++ VUndefined :: drop i order)
    as Hd.
  { unfold dropped_order, splice at 1. cbn [to_integer default id].
    destruct (Z.ltb_spec n 0) as [? | _]; [lia |].
    replace (Z.min n (Z.of_nat (length order))) with (Z.of_nat (length order)) by lia.
    rewrite Z.sub_diag, Nat2Z.id. change (Z.to_nat (Z.min (Z.max 1 0) 0)) with 0%nat.
    rewrite Nat.add_0_r, drop_all, take_ge, app_nil_r by lia.
    cbn [take head default id]. by rewrite splice_insert by lia. }
  assert (get (settings w') "categoryOrder"
          = VArr (take i order ++ VUndefined :: drop i order)) as H'.
  { unfold w'. rewrite (settings_drop_on _ _ _ _ Hget), Hn.
    rewrite bool_decide_eq_true_2 by (intros [= ->]; lia). by rewrite Hd. }
  split; [done |]. unfold order_of. rewrite H'.
  rewrite length_app. cbn [length]. rewrite length_take, length_drop. lia.
Qed.

Lemma drop_index_past_end_witness :
  get (settings (run (drop_on (lit "7") 1) sample_world)) "categoryOrder"
  = VArr [str "Vowels"; VUndefined; str "Consonants"; str "Diacritics";
          str "Suprasegmentals"].
Proof.
  refine (proj1 (drop_index_past_end sample_world (category_name <$> all_categories)
                   (lit "7") 7 1 _ _ _ _));
    [reflexivity | reflexivity | simpl; lia | simpl; lia].
Defined.

(** ** When the host rejects a write *)

(** X6.  When the host rejects the write, a toggle handler throws after it
    changed the flag in memory: the new flag is what a later render shows,
    but the stored data and the panel on screen stay as they were and no
    render is asked for. *)
Theorem toggle_save_rejected (w : World) (c : Category) (b : bool) :
  storage_ok w = false →
  let r := setVisibility c b w in
  let w' := world_of r in
  r = Throw StorageError w' ∧
  settings w' = <[show_key c := VBool b]> (settings w) ∧
  visible (settings w') c = b ∧
  data_json w' = data_json w ∧
  contentEl w' = contentEl w ∧
  trace w' = trace w ++ [CSaveData (settings w')].
Proof.
  intros Hok r w'. unfold w', r.
  rewrite setVisibility_onChange, onChange_spec, Hok. cbn zeta.
  cbn [world_of settings data_json contentEl trace set_trace set_settings].
  repeat split; try done.
  rewrite visible_insert. by rewrite decide_True.
Qed.

Lemma toggle_save_rejected_witness :
  contentEl (run (setVisibility Vowels false) (run onOpen read_only_world))
  = rendered DEFAULT_SETTINGS.
Proof.
  pose proof (toggle_save_rejected (run onOpen read_only_world) Vowels false eq_refl)
    as (_ & _ & _ & _ & H & _).
  exact (eq_trans H eq_refl).
Defined.

(** X7.  When the host rejects the write, a move of an entry to another
    index throws after it changed the order in memory: the stored data and
    the panel stay as they were, and neither a render nor a new settings
    page is asked for. *)
Theorem reorder_save_rejected
    (w : World) (order : list value) (x : value) (i j : nat) :
  get (settings w) "categoryOrder" = VArr order →
  order !! i = Some x → (j < length order)%nat → i ≠ j →
  storage_ok w = false →
  let r := reorder i j w in
  let w' := world_of r in
  r = Throw StorageError w' ∧
  get (settings w') "categoryOrder" = VArr (moved_to order i j x) ∧
  data_json w' = data_json w ∧
  contentEl w' = contentEl w ∧
  trace w' = trace w ++ [CSaveData (settings w')].
Proof.
  intros Hget Hi Hj Hne Hok r w'. unfold w', r.
  rewrite (reorder_moves _ _ _ _ _ Hget Hi Hj Hne), commit_order_spec, Hok. cbn zeta.
  cbn [world_of settings data_json contentEl trace set_trace set_settings].
  repeat split; try done. unfold get. by rewrite lookup_insert_eq.
Qed.

Lemma reorder_save_rejected_witness :
  data_json (run (reorder 0 1) read_only_world) = VNull.
Proof.
  pose proof (reorder_save_rejected read_only_world
                (category_name <$> all_categories) (str "Vowels") 0 1) as H.
  destruct H as (_ & _ & H & _);
    [reflexivity | reflexivity | simpl; lia | lia | reflexivity |].
  exact H.
Defined.

(** ** The two components keep to themselves *)

Lemma on_active_leaf_change_preserves {B} (f : World → B) (a : option MarkdownView) :
  (∀ x w, f (set_lastActiveEditor x w) = f w) →
  (∀ x w, f (set_lastActiveView x w) = f w) →
  preserves f (on_active_leaf_change a).
Proof.
  intros He Hv. destruct a as [v |]; [| done]. cbn [on_active_leaf_change].
  apply preserves_bind; [| intros _]; by apply preserves_modify.
Qed.

(** No handler changes whether the host accepts writes or whether the view
    exists, and what else a handler leaves alone depends on its side. *)
Lemma handle_preserves {B} (f : World → B) (ev : Event) :
  (∀ t w, f (set_trace t w) = f w) → (∀ x w, f (set_data_json x w) = f w) →
  (∀ x w, f (set_contentEl x w) = f w) → (∀ x w, f (set_settings x w) = f w) →
  (∀ x w, f (set_editors x w) = f w) → (∀ x w, f (set_focused x w) = f w) →
  (∀ x w, f (set_lastActiveEditor x w) = f w) →
  (∀ x w, f (set_lastActiveView x w) = f w) →
  preserves f (handle ev).
Proof.
  intros. destruct ev as [a | char | | | c b | data i]; cbn [handle].
  - by apply on_active_leaf_change_preserves.
  - by apply insertCharacterAtCursor_preserves.
  - by apply onOpen_preserves.
  - by apply preserves_modify.
  - rewrite setVisibility_onChange. by apply onChange_preserves.
  - by apply drop_on_preserves.
Qed.

(** X8.  The tracker and the configuration do not touch each other: a
    focus change or a click leaves the settings, the stored data and the
    panel as they were, whether it returns or throws; opening, closing, a
    toggle and a drop leave every document, the input focus and the stored
    target as they were. *)
Theorem components_separate (ev : Event) (w : World) :
  let w' := run (handle ev) w in
  match ev with
  | EActiveLeafChange _ | EClick _ =>
      settings w' = settings w ∧ data_json w' = data_json w ∧
      contentEl w' = contentEl w
  | EOpen | EClose | EToggle _ _ | EDrop _ _ =>
      editors w' = editors w ∧ focused w' = focused w ∧
      lastActiveEditor w' = lastActiveEditor w ∧
      lastActiveView w' = lastActiveView w
  end.
Proof.
  intros w'. unfold w', run.
  destruct ev as [a | char | | | c b | data i]; cbn [handle].
  - repeat split; by apply on_active_leaf_change_preserves.
  - repeat split; by apply insertCharacterAtCursor_preserves.
  - repeat split; by apply onOpen_preserves.
  - done.
  - rewrite setVisibility_onChange. repeat split; by apply onChange_preserves.
  - repeat split; by apply drop_on_preserves.
Qed.

(** ** The panel on screen *)

Lemma drop_on_unfold (data : text) (i : nat) (w : World) :
  drop_on data i w
  = if bool_decide (parseInt data ≠ Some (Z.of_nat i)) then
      match iterate (get (settings w) "categoryOrder") with
      | inl e => Throw e w
      | inr l => commit_order (dropped_order l (parseInt data) i) w
      end
    else Ok tt w.
Proof.
  unfold drop_on, dropped_order. case_bool_decide; [| done].
  unfold mbind at 1 2, M_bind at 1 2, bind at 1 2, gets.
  destruct (iterate (get (settings w) "categoryOrder")) as [e | l]; [done |].
  cbn [lift ret].
  destruct (splice l (parseInt data) 1 []) as [o removed].
  by destruct (splice o (Some (Z.of_nat i)) 0 [default VUndefined (head removed)]).
Qed.

Lemma drop_on_cases (data : text) (i : nat) (w : World) :
  drop_on data i w = Ok tt w
  ∨ drop_on data i w = Throw TypeError w
  ∨ ∃ newOrder, drop_on data i w = commit_order newOrder w.
Proof.
  rewrite drop_on_unfold. case_bool_decide; [| by left]. right.
  destruct (iterate (get (settings w) "categoryOrder")) as [e | l] eqn:Hit.
  - left. by destruct e, (get (settings w) "categoryOrder").
  - right. eauto.
Qed.

Lemma handle_keeps_panel_current (ev : Event) (w : World) :
  storage_ok w = true → ipaView w = true → ev ≠ EClose →
  contentEl w = rendered (settings w) →
  contentEl (run (handle ev) w) = rendered (settings (run (handle ev) w)).
Proof.
  intros Hok Hv Hev Hcur. unfold run.
  destruct ev as [a | char | | | c b | data i]; cbn [handle].
  - rewrite (on_active_leaf_change_preserves contentEl) by done.
    by rewrite (on_active_leaf_change_preserves settings).
  - rewrite (insertCharacterAtCursor_preserves contentEl) by done.
    by rewrite (insertCharacterAtCursor_preserves settings).
  - fold (run onOpen w). by rewrite run_onOpen.
  - done.
  - fold (run (setVisibility c b) w).
    rewrite setVisibility_onChange, run_onChange, Hok, Hv. done.
  - destruct (drop_on_cases data i w) as [-> | [-> | [l ->]]]; try done.
    rewrite commit_order_spec, Hok, Hv. done.
Qed.

(** X9.  While the host accepts writes and the palette view exists, the
    panel on screen is the render of the settings in memory after every
    event: once it is so, no run of focus changes, clicks, toggles, drops
    and renders (the view not being closed) leaves a stale panel. *)
Theorem panel_stays_current (evs : list Event) (w : World) :
  storage_ok w = true → ipaView w = true → EClose ∉ evs →
  contentEl w = rendered (settings w) →
  let w' := run_events evs w in
  contentEl w' = rendered (settings w') ∧
  section_titles (contentEl w') = getRenderPlan w'.
Proof.
  intros Hok Hv Hevs Hcur w'.
  assert (storage_ok w' = true ∧ ipaView w' = true
          ∧ contentEl w' = rendered (settings w')) as (_ & _ & H).
  { unfold w'. clear w'. induction evs as [| ev evs IH] using rev_ind; [done |].
    rewrite run_events_snoc. rewrite not_elem_of_app, not_elem_of_cons in Hevs.
    destruct Hevs as [Hevs [Hev _]]. destruct (IH Hevs) as (Hok' & Hv' & Hcur').
    unfold run at 1 2.
    rewrite (handle_preserves storage_ok), (handle_preserves ipaView) by done.
    repeat split; try done. by apply handle_keeps_panel_current. }
  split; [done |]. by rewrite getRenderPlan_rendered, H.
Qed.

Lemma panel_stays_current_witness :
  section_titles
    (contentEl (run_events [EToggle Vowels false; EDrop (toString 3) 0]
                  (run onOpen sample_world)))
  = [title Suprasegmentals; title Consonants; title Diacritics].
Proof.
  pose proof (panel_stays_current [EToggle Vowels false; EDrop (toString 3) 0]
                (run onOpen sample_world) eq_refl eq_refl) as H.
  destruct H as [_ H].
  - rewrite !not_elem_of_cons. repeat split; try discriminate. apply not_elem_of_nil.
  - reflexivity.
  - rewrite H. reflexivity.
Defined.



(** X11.  A render does not depend on what the panel held: rendering twice
    gives the panel of rendering once, with no section doubled. *)
Theorem render_starts_afresh (w : World) (els : list Element) :
  run onOpen (run onOpen w) = run onOpen w ∧
  contentEl (run onOpen (set_contentEl els w)) = contentEl (run onOpen w).
Proof. by rewrite !run_onOpen. Qed.

(** X12.  When [categoryOrder] is not iterable ([null], a number, a
    boolean, an object, or missing), a render throws a [TypeError] and
    leaves the heading alone in the panel, and a drop with data other than
    its own index throws before it saves anything. *)
Theorem order_not_iterable (w : World) (data : text) (i : nat) :
  iterate (get (settings w) "categoryOrder") = inl TypeError →
  parseInt data ≠ Some (Z.of_nat i) →
  onOpen w = Throw TypeError (set_contentEl [H2 (lit "IPA Palette")] w) ∧
  drop_on data i w = Throw TypeError w.
Proof.
  intros Hit Hne. split.
  - rewrite onOpen_spec. unfold rendered. by rewrite Hit.
  - rewrite drop_on_unfold, bool_decide_eq_true_2 by done. by rewrite Hit.
Qed.

Lemma order_not_iterable_witness :
  contentEl
    (run onOpen
       (run loadSettings
          (set_data_json (VObj {[ "categoryOrder"%string := VNull ]}) sample_world)))
  = [H2 (lit "IPA Palette")].
Proof.
  pose proof (order_not_iterable
    (run loadSettings
       (set_data_json (VObj {[ "categoryOrder"%string := VNull ]}) sample_world))
    (lit "1") 0 eq_refl) as [H _]; [discriminate |].
  unfold run at 1. rewrite H. reflexivity.
Defined.

Lemma code_points_short (s : text) :
  Forall (λ t : text, (length t ≤ 2)%nat) (code_points s)
  ∧ ∀ u, Forall (λ t : text, (length t ≤ 2)%nat) (code_points (u :: s)).
Proof.
  induction s as [| v r [IH1 IH2]].
  - split; [constructor |]. intros u. cbn. repeat constructor.
  - split; [apply IH2 |]. intros u. cbn [code_points].
    destruct (is_high_surrogate u && is_low_surrogate v).
    + constructor; [simpl; lia | done].
    + constructor; [simpl; lia | apply IH2].
Qed.

Lemma category_of_short (t : text) :
  (length t ≤ 2)%nat → category_of (VStr t) = None.
Proof.
  intros Hlen. unfold category_of, is_string.
  repeat (case_bool_decide; [subst t; simpl in Hlen; lia |]).
  done.
Qed.

(** X13.  When [categoryOrder] is a string, a render goes through its
    characters, none of which is a category name: it returns with the
    heading alone in the panel. *)
Theorem order_is_a_string (w : World) (s : text) :
  get (settings w) "categoryOrder" = VStr s →
  onOpen w = Ok tt (set_contentEl [H2 (lit "IPA Palette")] w) ∧
  getRenderPlan w = [].
Proof.
  intros Hget.
  assert (rendered (settings w) = [H2 (lit "IPA Palette")]) as Hr.
  { unfold rendered. rewrite Hget. cbn [iterate]. f_equal.
    destruct (code_points_short s) as [Hs _].
    induction Hs as [| t ts Ht _ IH]; [done |].
    cbn [fmap list_fmap omap list_omap]. unfold section_of at 1.
    by rewrite (category_of_short _ Ht). }
  split.
  - rewrite onOpen_spec, Hget. cbn [iterate]. by rewrite Hr.
  - by rewrite getRenderPlan_rendered, Hr.
Qed.

Lemma order_is_a_string_witness :
  getRenderPlan
    (set_settings (<["categoryOrder" := str "Vowels"]> DEFAULT_SETTINGS) sample_world)
  = [].
Proof.
  apply (order_is_a_string
           (set_settings (<["categoryOrder" := str "Vowels"]> DEFAULT_SETTINGS)
              sample_world)
           (lit "Vowels")).
  reflexivity.
Defined.

(** ** Loading, then rendering *)

(** X14.  When the stored data has no [categoryOrder] (nothing stored, a
    primitive, or an object without that field), the settings after a load
    have the default order and a value for every flag, so that a render
    returns and shows, in the default order, the categories whose loaded flag
    is on. *)
Theorem load_without_order_renders (w : World) (stored : value) :
  own_props stored !! "categoryOrder" = None →
  let w' := run loadSettings (set_data_json stored w) in
  get (settings w') "categoryOrder" = VArr (category_name <$> all_categories) ∧
  (∀ c, is_Some (settings w' !! show_key c)) ∧
  returns (onOpen w') = true ∧
  getRenderPlan w' = title <$> filter (λ c, visible (settings w') c) all_categories.
Proof.
  intros Hnone w'.
  assert (settings w' = delete "__proto__" (own_props stored) ∪ DEFAULT_SETTINGS)
    as Hs.
  { unfold w', run. by rewrite loadSettings_spec. }
  assert (get (settings w') "categoryOrder" = VArr (category_name <$> all_categories))
    as Hget.
  { unfold get. rewrite Hs, lookup_union, lookup_delete_ne, Hnone by done.
    reflexivity. }
  split; [done |]. split; [| split].
  - intros c. rewrite Hs, lookup_union.
    assert (is_Some (DEFAULT_SETTINGS !! show_key c)) as [d ->] by (by destruct c).
    destruct (delete "__proto__" (own_props stored) !! show_key c); by eexists.
  - rewrite onOpen_spec, Hget. done.
  - by rewrite (getRenderPlan_array _ _ Hget), omap_category_of_names.
Qed.

Lemma load_without_order_renders_witness :
  getRenderPlan
    (run loadSettings
       (set_data_json (VObj {[ "showConsonants"%string := VNum 0 ]}) sample_world))
  = [title Vowels; title Diacritics; title Suprasegmentals].
Proof.
  pose proof (load_without_order_renders sample_world
                (VObj {[ "showConsonants"%string := VNum 0 ]}) eq_refl)
    as (_ & _ & _ & H).
  rewrite H. reflexivity.
Defined.

(** X15.  Every section that [onOpen] puts in the panel is the section of
    a category whose flag is on: its title is the name of the category, its
    buttons are the symbols of the category, and each button holds one code
    unit that is no line break, so that a click moves the cursor by one. *)
Theorem rendered_sections (w : World) (t : text) (buttons : list text) :
  CharacterSection t buttons ∈ contentEl (run onOpen w) →
  ∃ c, t = title c ∧ buttons = characters c ∧ visible (settings w) c = true ∧
       ∀ char, char ∈ buttons → length char = 1%nat ∧ no_line_break char.
Proof.
  rewrite run_onOpen. cbn [contentEl set_contentEl]. intros Hin.
  assert (∃ v, section_of (settings w) v = Some (CharacterSection t buttons))
    as [v Hv].
  { unfold rendered in Hin.
    destruct (iterate (get (settings w) "categoryOrder")) as [e | l].
    - apply list_elem_of_singleton in Hin. discriminate.
    - apply elem_of_cons in Hin as [Hin | Hin]; [discriminate |].
      apply list_elem_of_omap in Hin as (v & _ & Hv). eauto. }
  unfold section_of in Hv. destruct (category_of v) as [c |]; [| done].
  cbn [mbind option_bind] in Hv. destruct (visible (settings w) c) eqn:Hvis; [| done].
  injection Hv as <- <-. exists c. repeat split; try done.
  - by apply (palette_symbols c).
  - by apply (palette_symbols c).
Qed.

Lemma rendered_sections_witness :
  ∃ c, lit "Diacritics" = title c ∧ diacritics = characters c.
Proof.
  destruct (rendered_sections sample_world (lit "Diacritics") diacritics)
    as (c & Ht & Hb & _).
  - apply list_elem_of_lookup. exists 3%nat. reflexivity.
  - by exists c.
Defined.

(** ** Clicks one after the other *)

Lemma insert_step
    (w : World) (e : nat) (v : MarkdownView) (d : list text) (l char : text)
    (L C : nat) :
  lastActiveEditor w = Some e → lastActiveView w = Some v →
  editors w !!! e = {| doc := d; cursor := {| line := L; ch := C |} |} →
  d !! L = Some l → (C ≤ length l)%nat → no_line_break char →
  let w' := run (insertCharacterAtCursor char) w in
  editors w'
  = <[e := {| doc := <[L := take C l ++ char ++ drop C l]> d;
              cursor := {| line := L; ch := C + length char |} |}]> (editors w) ∧
  lastActiveEditor w' = Some e ∧ lastActiveView w' = Some v ∧
  focused w' = Some (editor v).
Proof.
  intros He Hv Hed Hl HC Hchar w'. unfold w', run.
  rewrite (insertCharacterAtCursor_target _ _ _ _ He Hv). rewrite Hed.
  cbn [doc cursor line ch world_of editors focused lastActiveEditor lastActiveView
       set_focused set_trace set_editors].
  rewrite (insert_text_inside _ _ _ _ _ Hl HC Hchar).
  repeat split; try done. do 3 f_equal.
  apply clip_inside with (l := take C l ++ char ++ drop C l).
  - apply list_lookup_insert_eq. by eapply lookup_lt_Some.
  - rewrite !length_app, length_take. lia.
Qed.

Lemma insert_twice_line (l a b : text) (C : nat) :
  (C ≤ length l)%nat →
  take (C + length a) (take C l ++ a ++ drop C l) ++ b
    ++ drop (C + length a) (take C l ++ a ++ drop C l)
  = take C l ++ a ++ b ++ drop C l.
Proof.
  intros HC.
  assert (length (take C l ++ a) = (C + length a)%nat) as Hlen
    by (rewrite length_app, length_take; lia).
  rewrite (app_assoc (take C l) a (drop C l)).
  rewrite take_app_length', drop_app_length' by done.
  by rewrite <- app_assoc.
Qed.

(** X16.  After a focus change that reports a view, clicks write to the
    editor of that view, whatever target was stored before, and each click
    starts where the last one left the cursor: two clicks put the two symbols
    one after the other at the cursor, leave the cursor behind the second,
    give the editor the input focus and touch no other editor. *)
Theorem clicks_after_focus
    (w : World) (v : MarkdownView) (d : list text) (l a b : text) (L C : nat) :
  editors w !!! editor v = {| doc := d; cursor := {| line := L; ch := C |} |} →
  d !! L = Some l → (C ≤ length l)%nat →
  no_line_break a → no_line_break b →
  let w' := run_events [EActiveLeafChange (Some v); EClick a; EClick b] w in
  editors w' !!! editor v
  = {| doc := <[L := take C l ++ a ++ b ++ drop C l]> d;
       cursor := {| line := L; ch := C + length a + length b |} |} ∧
  focused w' = Some (editor v) ∧
  (∀ e', e' ≠ editor v → editors w' !! e' = editors w !! e').
Proof.
  intros Hed Hl HC Ha Hb w'.
  pose proof (lookup_lt_Some _ _ _ Hl) as HL.
  set (w1 := run (on_active_leaf_change (Some v)) w).
  destruct (insert_step w1 (editor v) v d l a L C eq_refl eq_refl Hed Hl HC Ha)
    as (Hed2 & He2 & Hv2 & _).
  set (w2 := run (insertCharacterAtCursor a) w1) in *.
  set (l' := take C l ++ a ++ drop C l) in *.
  destruct (insert_step w2 (editor v) v (<[L := l']> d) l' b L (C + length a)
              He2 Hv2) as (Hed3 & _ & _ & Hf3).
  - rewrite Hed2. by rewrite lookup_total_insert_eq.
  - by apply list_lookup_insert_eq.
  - unfold l'. rewrite !length_app, length_take. lia.
  - done.
  - change w' with (run (insertCharacterAtCursor b) w2).
    rewrite Hed3, Hed2. split; [| split; [done |]].
    + rewrite lookup_total_insert_eq, list_insert_insert_eq.
      unfold l'. by rewrite insert_twice_line.
    + intros e' Hne. by rewrite !lookup_insert_ne.
Qed.

Lemma clicks_after_focus_witness :
  editors (run_events [EActiveLeafChange (Some sample_view); EClick [0x259%N];
                       EClick [0x2D0%N]] sample_world) !!! 1%nat
  = {| doc := [lit "pat"; [107; 0x259; 0x2D0; 116]%N];
       cursor := {| line := 1; ch := 3 |} |}.
Proof.
  pose proof (clicks_after_focus sample_world sample_view
                [lit "pat"; lit "kt"] (lit "kt") [0x259%N] [0x2D0%N] 1 1
                eq_refl eq_refl) as H.
  destruct H as (H & _).
  - simpl. lia.
  - repeat constructor; discriminate.
  - repeat constructor; discriminate.
  - exact H.
Defined.

(** ** Opening and closing the palette *)

Lemma run_steps_snoc (steps : list Step) (s : Step) (ws : Workspace) :
  run_steps (steps ++ [s]) ws = step (run_steps steps ws) s.
Proof. unfold run_steps. by rewrite foldl_snoc. Qed.





(** X18.  [activateView] never makes a second palette leaf: with at most
    one at the start, there is at most one after any run of activations and
    events; and without a right leaf to put the view in, it fails and
    changes nothing. *)
Theorem at_most_one_palette_leaf (ws : Workspace) (steps : list Step) :
  (length (leaves ws) ≤ 1)%nat →
  (length (leaves (run_steps steps ws)) ≤ 1)%nat ∧
  (leaves ws = [] → rightLeaf ws = None → activateView ws = Failed TypeError ws).
Proof.
  intros Hlen. split.
  - induction steps as [| s steps IH] using rev_ind; [done |].
    rewrite run_steps_snoc. destruct s as [| ev]; cbn [step].
    2: { cbn [leaves]. destruct ev; try done.
         destruct (leaves (run_steps steps ws)); simpl in *; lia. }
    unfold activateView.
    destruct (leaves (run_steps steps ws)) as [| l ls] eqn:Hl.
    + destruct (rightLeaf (run_steps steps ws));
        cbn [state_of setViewState leaves]; rewrite ?Hl; simpl; lia.
    + cbn [state_of revealLeaf leaves]. by rewrite Hl.
  - intros Hl Hr. unfold activateView. by rewrite Hl, Hr.
Qed.

Lemma at_most_one_palette_leaf_witness :
  (length (leaves (run_steps [SActivate; SActivate; SActivate] sample_workspace))
   ≤ 1)%nat.
Proof.
  apply (at_most_one_palette_leaf sample_workspace [SActivate; SActivate; SActivate]).
  simpl. lia.
Defined.

(** X19.  Unloading closes the palette: no palette leaf is left and the
    panel is empty.  A view built after that starts without target, whatever
    target the closed view had stored, and shows the render of the settings
    in memory. *)
Theorem unload_then_open (ws : Workspace) (leaf : nat) :
  rightLeaf ws = Some leaf → leaves ws ≠ [] →
  let closed := onunload ws in
  let ws' := state_of (activateView closed) in
  leaves closed = [] ∧ contentEl (plugin closed) = [] ∧
  settings (plugin closed) = settings (plugin ws) ∧
  leaves ws' = [leaf] ∧
  lastActiveEditor (plugin ws') = None ∧ lastActiveView (plugin ws') = None ∧
  contentEl (plugin ws') = rendered (settings (plugin ws)).
Proof.
  intros Hr Hne closed ws'.
  assert (contentEl (plugin closed) = [] ∧ settings (plugin closed) = settings (plugin ws))
    as [Hc Hs].
  { unfold closed, onunload, detachLeavesOfType. cbn [plugin].
    destruct (leaves ws) as [| l ls]; [done |]. cbn [foldr]. split; [done |].
    clear Hne. unfold run, onClose, modify, world_of. cbn [settings set_contentEl].
    induction ls as [| l' ls IH]; [done |]. cbn [foldr]. apply IH. }
  unfold ws', activateView. cbn [closed onunload detachLeavesOfType leaves rightLeaf].
  rewrite Hr. cbn [state_of setViewState leaves plugin app].
  rewrite run_onOpen. cbn [lastActiveEditor lastActiveView contentEl set_contentEl].
  repeat split; try done. f_equal. exact Hs.
Qed.

Lemma unload_then_open_witness :
  lastActiveView
    (plugin (state_of (activateView (onunload
       (run_steps [SActivate; SEvent (EActiveLeafChange (Some sample_view))]
          sample_workspace)))))
  = None.
Proof.
  pose proof (unload_then_open
    (run_steps [SActivate; SEvent (EActiveLeafChange (Some sample_view))]
       sample_workspace) 5 eq_refl) as H.
  destruct H as (_ & _ & _ & _ & _ & H & _); [discriminate | exact H].
Defined.

(** X20.  Start-up: [onload] and then the layout-ready callback, in a
    workspace without palette leaf, leave the fields of the stored data (all
    its own properties but ["__proto__"]) merged over the defaults as
    settings, one palette leaf, a view without target, and the panel that is
    the render of these settings. *)
Theorem startup_opens_palette (ws : Workspace) (leaf : nat) :
  leaves ws = [] → rightLeaf ws = Some leaf →
  let ws' := state_of (activateView (onload ws)) in
  settings (plugin ws')
  = delete "__proto__" (own_props (data_json (plugin ws))) ∪ DEFAULT_SETTINGS ∧
  leaves ws' = [leaf] ∧ ipaView (plugin ws') = true ∧
  lastActiveEditor (plugin ws') = None ∧ lastActiveView (plugin ws') = None ∧
  contentEl (plugin ws') = rendered (settings (plugin ws')).
Proof.
  intros Hl Hr ws'. unfold ws', activateView, onload. cbn [leaves rightLeaf plugin].
  rewrite Hl, Hr. cbn [state_of setViewState leaves plugin app].
  assert (run loadSettings (plugin ws)
          = set_settings
              (delete "__proto__" (own_props (data_json (plugin ws)))
               ∪ DEFAULT_SETTINGS) (plugin ws)) as ->
    by (unfold run; by rewrite loadSettings_spec).
  rewrite run_onOpen. repeat split; reflexivity.
Qed.

Lemma startup_opens_palette_witness :
  section_titles
    (contentEl (plugin (state_of (activateView (onload
       {| plugin := set_data_json (VObj {[ "showVowels"%string := VBool false ]})
                      sample_world;
          leaves := []; rightLeaf := Some 5%nat; revealed := [] |})))))
  = [title Consonants; title Diacritics; title Suprasegmentals].
Proof.
  pose proof (startup_opens_palette
    {| plugin := set_data_json (VObj {[ "showVowels"%string := VBool false ]})
                   sample_world;
       leaves := []; rightLeaf := Some 5%nat; revealed := [] |} 5 eq_refl eq_refl)
    as (_ & _ & _ & _ & _ & H).
  rewrite H. reflexivity.
Defined.

(** ** Renders asked for by the settings page *)

(** X21.  A render that fails does not fail the toggle that asked for it,
    and without palette view nothing is rendered: when the host accepts the
    write, a toggle returns, the stored data is the settings object in
    memory, and the panel is the render of the new settings if the view
    exists (the heading alone if [categoryOrder] cannot be iterated) and is
    left as it was if not. *)
Theorem toggle_returns_when_saved (w : World) (c : Category) (b : bool) :
  storage_ok w = true →
  let r := setVisibility c b w in
  let w' := world_of r in
  returns r = true ∧
  settings w' = <[show_key c := VBool b]> (settings w) ∧
  data_json w' = VObj (settings w') ∧
  contentEl w' = (if ipaView w then rendered (settings w') else contentEl w) ∧
  trace w' = trace w ++ [CSaveData (settings w'); CRefreshView].
Proof.
  intros Hok r w'. unfold w', r.
  rewrite setVisibility_onChange, onChange_spec, Hok. cbn zeta.
  by destruct (ipaView w).
Qed.

Lemma toggle_returns_when_saved_witness :
  contentEl
    (run (setVisibility Vowels false)
       (set_settings (<["categoryOrder" := VNull]> DEFAULT_SETTINGS) sample_world))
  = [H2 (lit "IPA Palette")].
Proof.
  pose proof (toggle_returns_when_saved
    (set_settings (<["categoryOrder" := VNull]> DEFAULT_SETTINGS) sample_world)
    Vowels false eq_refl) as (_ & _ & _ & H & _).
  exact (eq_trans H eq_refl).
Defined.

(** X22.  For any array order, a category has a section exactly when its
    flag is on and its name is an entry of the order: a category that the
    order does not list is not shown, whatever its flag, and the panel has at
    most one section per entry. *)
Theorem shown_iff_listed_and_on (w : World) (order : list value) (c : Category) :
  get (settings w) "categoryOrder" = VArr order →
  (title c ∈ getRenderPlan w
   ↔ visible (settings w) c = true ∧ category_name c ∈ order) ∧
  (length (getRenderPlan w) ≤ length order)%nat.
Proof.
  intros Hget. rewrite (getRenderPlan_array _ _ Hget). split.
  - rewrite (list_elem_of_fmap_inj title), list_elem_of_filter, list_elem_of_omap.
    split.
    + intros [Hv (v & Hin & Hcat)]. apply category_of_Some in Hcat as ->.
      split; [| done]. by destruct (visible (settings w) c).
    + intros [Hv Hin]. split; [by rewrite Hv |].
      exists (category_name c). split; [done | apply category_of_name].
  - rewrite length_fmap.
    etrans; [apply length_filter |].
    clear Hget. induction order as [| v order IH]; [done |].
    cbn [omap list_omap length]. destruct (category_of v); cbn [length]; lia.
Qed.

Lemma shown_iff_listed_and_on_witness :
  title Consonants
  ∉ getRenderPlan
      (set_settings (<["categoryOrder" := VArr [str "Vowels"; str "Vowels"]]>
                       DEFAULT_SETTINGS) sample_world).
Proof.
  pose proof (shown_iff_listed_and_on
    (set_settings (<["categoryOrder" := VArr [str "Vowels"; str "Vowels"]]>
                     DEFAULT_SETTINGS) sample_world)
    [str "Vowels"; str "Vowels"] Consonants eq_refl) as [H _].
  intros Hin. apply H in Hin as [_ Hin].
  rewrite !elem_of_cons in Hin. destruct Hin as [Hin | [Hin | Hin]];
    [discriminate | discriminate | by apply elem_of_nil in Hin].
Defined.
